(** * AI interview bot: the service layer and the three request handlers

    A shallow embedding of [services/ai_services.py] and [main.py].

    - Text is a Rocq [string]: a sequence of 8-bit characters, read as the
      code points U+0000..U+00FF of a Python [str].
    - Every call that leaves the process (the Gemini file API, the two
      generative models, the LangChain chains, the local file system,
      [print]) is recorded as an [Event] in a trace, and answered by a
      [World]: one oracle per call, which sees the trace so far.
    - Python exceptions are the [Raise] outcome of a [result]; [try/except]
      and [try/finally] are combinators of the monad [M].
    - The polling loop of [transcribe_video_file] has no bound in the
      source; the embedding gives it fuel, and a run that is still polling
      when the fuel is gone has no outcome ([None]). *)

From Stdlib Require Import Bool Arith List String Ascii ZArith NArith Lia.
From Stdlib.Strings Require Import Byte.
Import ListNotations.
Local Open Scope string_scope.

Set Implicit Arguments.

(* ================================================================== *)
(** * Python text operations *)

Module PyStr.

(** The line-feed character, and ["\n\n"]. *)
Definition LF : ascii := ascii_of_nat 10.
Definition nl : string := String LF "".
Definition blank_line : string := nl ++ nl.

Definition code (c : ascii) : nat := nat_of_ascii c.

Definition between (lo hi n : nat) : bool :=
  (Nat.leb lo n && Nat.leb n hi)%bool.

(** [str.isspace] on one character below U+0100: TAB..CR, FS..US, space,
    NEL and the no-break space. *)
Definition isspace (c : ascii) : bool :=
  let n := code c in
  between 9 13 n || between 28 32 n || Nat.eqb n 133 || Nat.eqb n 160.

(** The decimal digits ['0'..'9']. *)
Definition isdecimal (c : ascii) : bool := between 48 57 (code c).

(** [str.isdigit] on one character below U+0100: the decimal digits and
    the superscript digits U+00B2, U+00B3 and U+00B9. *)
Definition isdigit (c : ascii) : bool :=
  let n := code c in
  between 48 57 n || Nat.eqb n 178 || Nat.eqb n 179 || Nat.eqb n 185.

Fixpoint lstrip (s : string) : string :=
  match s with
  | EmptyString => EmptyString
  | String c s' => if isspace c then lstrip s' else s
  end.

Fixpoint rstrip (s : string) : string :=
  match s with
  | EmptyString => EmptyString
  | String c s' =>
      match rstrip s' with
      | EmptyString => if isspace c then EmptyString else String c EmptyString
      | r => String c r
      end
  end.

(** [s.strip()] *)
Definition strip (s : string) : string := rstrip (lstrip s).

(** [s.split(sep)] for a one-character separator: every occurrence of
    [sep] ends a piece, so the result has one piece more than there are
    separators, empty pieces included. *)
Fixpoint split (sep : ascii) (s : string) : list string :=
  match s with
  | EmptyString => [EmptyString]
  | String c s' =>
      if Ascii.eqb c sep then EmptyString :: split sep s'
      else match split sep s' with
           | piece :: rest => String c piece :: rest
           | [] => [String c EmptyString]
           end
  end.

(** [sep.join(l)] *)
Definition join (sep : string) (l : list string) : string :=
  String.concat sep l.

(** Truth value of a [str]: non-empty. *)
Definition truthy (s : string) : bool :=
  match s with EmptyString => false | String _ _ => true end.

(** [s[0].isdigit()], for a non-empty [s]; [false] stands in for the
    [IndexError] of the empty string, which the callers exclude by
    testing [truthy] first. *)
Definition first_isdigit (s : string) : bool :=
  match s with EmptyString => false | String c _ => isdigit c end.

Definition first_isdecimal (s : string) : bool :=
  match s with EmptyString => false | String c _ => isdecimal c end.

Fixpoint all_chars (p : ascii -> bool) (s : string) : bool :=
  match s with
  | EmptyString => true
  | String c s' => p c && all_chars p s'
  end.

(** Empty or made of white space only. *)
Definition whitespace_only (s : string) : bool := all_chars isspace s.

(** Every character is below U+0080. *)
Definition isascii (s : string) : bool :=
  all_chars (fun c => Nat.ltb (code c) 128) s.

End PyStr.

(* ================================================================== *)
(** * [base64.b64encode] *)

Module Base64.

Definition alphabet : string :=
  "ABCDEFGHIJKLMNOPQRSTUVWXYZabcdefghijklmnopqrstuvwxyz0123456789+/".

Definition digit (n : N) : ascii :=
  match String.get (N.to_nat n) alphabet with
  | Some c => c
  | None => "="%char
  end.

Definition pad : ascii := "="%char.

Fixpoint b64encode (bs : list byte) : string :=
  match bs with
  | [] => EmptyString
  | [a] =>
      let a := Byte.to_N a in
      String (digit (N.shiftr a 2))
        (String (digit (N.shiftl (N.land a 3) 4))
           (String pad (String pad EmptyString)))
  | [a; b] =>
      let a := Byte.to_N a in
      let b := Byte.to_N b in
      String (digit (N.shiftr a 2))
        (String (digit (N.lor (N.shiftl (N.land a 3) 4) (N.shiftr b 4)))
           (String (digit (N.shiftl (N.land b 15) 2))
              (String pad EmptyString)))
  | a :: b :: c :: rest =>
      let a := Byte.to_N a in
      let b := Byte.to_N b in
      let c := Byte.to_N c in
      String (digit (N.shiftr a 2))
        (String (digit (N.lor (N.shiftl (N.land a 3) 4) (N.shiftr b 4)))
           (String (digit (N.lor (N.shiftl (N.land b 15) 2) (N.shiftr c 6)))
              (String (digit (N.land c 63)) (b64encode rest))))
  end.

End Base64.

(* ================================================================== *)
(** * Values, exceptions and the outside world *)

(** A Python exception (every one the program meets is an [Exception]);
    [message] is what [str(e)] prints. *)
Record Exn : Type := Exception { message : string }.

Inductive result (A : Type) : Type :=
| Ok (a : A)
| Raise (e : Exn).
Arguments Ok {A} a.
Arguments Raise {A} e.

Definition is_raise {A} (r : result A) : bool :=
  match r with Ok _ => false | Raise _ => true end.

(** A [genai] file object: [gemini_file.name] and
    [gemini_file.state.name]. *)
Record File : Type := { name : string; state : string }.

(** The answer of [direct_gemini_model.generate_content]; reading
    [response.text] can itself raise. *)
Record ContentResponse : Type := { text : result string }.

(** The answer of [tts_model.generate_content]; [audio_content] raises
    when the attribute is missing or is not bytes. *)
Record TtsResponse : Type := { audio_content : result (list byte) }.

(** An uploaded form file: [video.filename] and [await video.read()]. *)
Record UploadFile : Type := { filename : string; read : result (list byte) }.

(** Everything the process does to the outside, in program order. *)
Inductive Event : Type :=
| upload_file (path : string)                      (* genai.upload_file *)
| sleep (seconds : Z)                              (* time.sleep *)
| get_file (handle : string)                       (* genai.get_file *)
| generate_content (prompt : string) (file : File) (* direct_gemini_model *)
| delete_file (handle : string)                    (* genai.delete_file *)
| tts_generate_content (speech : string)           (* tts_model *)
| llm_invoke (prompt : string)                     (* a chain's ainvoke *)
| print (line : string)
| fs_open (path : string)                          (* open(path, "wb") *)
| fs_write (path : string) (data : list byte)      (* buffer.write, close *)
| fs_exists (path : string)                        (* os.path.exists *)
| fs_remove (path : string).                       (* os.remove *)

Definition Trace : Type := list Event.

(** The outside world: what each call answers, given the trace before it.
    [first_failure] settles which exception [asyncio.gather] raises when
    both its tasks fail ([true]: the first task's). *)
Record World : Type := {
  on_upload_file : Trace -> string -> result File;
  on_get_file : Trace -> string -> result File;
  on_generate_content : Trace -> string -> File -> result ContentResponse;
  on_delete_file : Trace -> string -> result unit;
  on_tts : Trace -> string -> result TtsResponse;
  on_llm : Trace -> string -> result string;
  first_failure : Trace -> bool;
  on_fs_open : Trace -> string -> result unit;
  on_fs_write : Trace -> string -> list byte -> result unit;
  on_fs_exists : Trace -> string -> bool;
  on_fs_remove : Trace -> string -> result unit
}.

(** The module-level dict [interview_data] of [main.py]. It has three
    keys, each with values of one type; a key that is absent is [None].
    It starts as [{}]. *)
Record InterviewData : Type := {
  role_title : option string;
  questions : option (list string);
  responses : option (list string)
}.

Definition interview_data_init : InterviewData :=
  {| role_title := None; questions := None; responses := None |}.

(** [d.get(key, default)] *)
Definition dict_get {A} (field : option A) (default : A) : A :=
  match field with Some v => v | None => default end.

(** The state of the process: the session dict and the trace. *)
Record Machine : Type := { interview_data : InterviewData; trace : Trace }.

(** The state after some more events. *)
Definition logged (s : Machine) (evs : list Event) : Machine :=
  {| interview_data := interview_data s; trace := (trace s ++ evs)%list |}.

(** JSON bodies, as far as the handlers build them: an object whose
    members are [null], a string or a list of strings. *)
Inductive JsonValue : Type :=
| JNull
| JStr (s : string)
| JList (l : list string).

Definition Json : Type := list (string * JsonValue).

Inductive Response : Type :=
| JSONResponse (status_code : Z) (content : Json)
| TemplateResponse (template : string) (context : list (string * string)).

(** The dict returned by [generate_interview_content]. *)
Record Content : Type := {
  introduction : string;
  content_questions : list string;
  greetingAudio : option string
}.

Definition content_json (c : Content) : Json :=
  [("introduction", JStr (introduction c));
   ("questions", JList (content_questions c));
   ("greetingAudio",
    match greetingAudio c with Some a => JStr a | None => JNull end)].

(* ================================================================== *)
(** * The monad: state, exceptions, and running out of fuel *)

Section Monad.
Variable St : Type.

Definition M (A : Type) : Type := St -> option (St * result A).

Definition ret {A} (a : A) : M A := fun s => Some (s, Ok a).

Definition raise {A} (e : Exn) : M A := fun s => Some (s, Raise e).

Definition out_of_fuel {A} : M A := fun _ => None.

Definition bind {A B} (m : M A) (k : A -> M B) : M B :=
  fun s =>
    match m s with
    | None => None
    | Some (s1, Ok a) => k a s1
    | Some (s1, Raise e) => Some (s1, Raise e)
    end.

(** [try: body / except Exception as e: handler e] *)
Definition try_except {A} (body : M A) (handler : Exn -> M A) : M A :=
  fun s =>
    match body s with
    | None => None
    | Some (s1, Ok a) => Some (s1, Ok a)
    | Some (s1, Raise e) => handler e s1
    end.

(** [try: body / finally: final]. The final block runs on every outcome
    of the body; when it raises, its exception is the outcome. *)
Definition try_finally {A} (body : M A) (final : M unit) : M A :=
  fun s =>
    match body s with
    | None => None
    | Some (s1, r) =>
        match final s1 with
        | None => None
        | Some (s2, Ok _) => Some (s2, r)
        | Some (s2, Raise e) => Some (s2, Raise e)
        end
    end.

(** An attribute read that may raise. *)
Definition attr {A} (r : result A) : M A := fun s => Some (s, r).
End Monad.

Arguments ret {St A} a.
Arguments raise {St A} e.
Arguments out_of_fuel {St A}.
Arguments bind {St A B} m k.
Arguments try_except {St A} body handler.
Arguments try_finally {St A} body final.
Arguments attr {St A} r.

Declare Scope py_scope.
Delimit Scope py_scope with py.
Notation "x <- m ;; k" := (bind m (fun x => k))
  (at level 100, m at next level, right associativity) : py_scope.
Notation "m ;; k" := (bind m (fun _ => k))
  (at level 100, right associativity) : py_scope.
Local Open Scope py_scope.

(** Local variables of a function body: a frame [L] on top of the
    process state, created at entry and dropped at return. *)
Section Locals.
Variables L St : Type.

Definition lift {A} (m : M St A) : M (L * St) A :=
  fun ls =>
    match m (snd ls) with
    | None => None
    | Some (s1, r) => Some ((fst ls, s1), r)
    end.

Definition get_local : M (L * St) L := fun ls => Some (ls, Ok (fst ls)).

Definition set_local (l : L) : M (L * St) unit :=
  fun ls => Some ((l, snd ls), Ok tt).

Definition with_locals {A} (init : L) (body : M (L * St) A) : M St A :=
  fun s =>
    match body (init, s) with
    | None => None
    | Some (ls, r) => Some (snd ls, r)
    end.
End Locals.

Arguments lift {L St A} m.
Arguments get_local {L St}.
Arguments set_local {L St} l.
Arguments with_locals {L St A} init body.

(** A call to the outside: the event joins the trace and the world
    answers from the trace before it. *)
Definition extern {A} (ev : Event) (reply : Trace -> result A) : M Machine A :=
  fun s => Some (logged s [ev], reply (trace s)).

Definition get_data : M Machine InterviewData :=
  fun s => Some (s, Ok (interview_data s)).

Definition set_data (d : InterviewData) : M Machine unit :=
  fun s => Some ({| interview_data := d; trace := trace s |}, Ok tt).

(* ================================================================== *)
(** * services/ai_services.py *)

Import PyStr.

(** ** Prompt templates *)

(** [intro_template.format(role_title=..., role_description=...)] *)
Definition intro_template (role_title role_description : string) : string :=
  "You are an AI hiring assistant. Generate a warm and welcoming introduction for a candidate applying for the "
  ++ role_title
  ++ " position. Briefly mention that this is an AI-assisted first-round interview designed to be fair and objective. The role involves: "
  ++ role_description ++ ".".

Definition question_template (role_description : string) : string :=
  "Based on the following job description, generate exactly 5 concise interview questions that cover both technical and behavioral aspects. Return them as a simple numbered list with no other introductory or concluding text. Job Description: "
  ++ role_description.

Definition evaluation_template (role_title full_transcription : string)
  : string :=
  "As an expert technical recruiter, analyze the following interview transcript for the role of "
  ++ role_title ++ "." ++ nl
  ++ "    Provide a structured and objective evaluation. The output must be in a clean, easy-to-read format with these exact sections:"
  ++ nl ++ nl
  ++ "    **1. Overall Summary:** A brief paragraph summarizing the candidate's performance and communication skills."
  ++ nl
  ++ "    **2. Strengths:** 3-4 bullet points highlighting the candidate's strong points, referencing their answers."
  ++ nl
  ++ "    **3. Areas for Improvement:** 3-4 bullet points on weaknesses or areas to probe further in a live interview."
  ++ nl ++ nl
  ++ "    Transcript:" ++ nl
  ++ "    " ++ full_transcription ++ nl
  ++ "    ".

Definition transcribe_instruction : string :=
  "Please transcribe the spoken words from this video. Return only the text.".

Definition no_valid_responses : string :=
  "No valid responses were submitted for this interview.".

Definition processing_failed : Exn :=
  Exception "Gemini file processing failed.".

(** Reading an attribute of [None]. *)
Definition none_has_no_attribute : Exn :=
  Exception "'NoneType' object has no attribute 'state'".

(** Line 96: the list comprehension over [questions_raw.split('\n')]. *)
Definition keep_question (q : string) : bool :=
  truthy (strip q) && first_isdigit (strip q).

Definition questions_list (questions_raw : string) : list string :=
  map strip (filter keep_question (split LF questions_raw)).

Section Services.
Variable w : World.

(** ** The calls to the outside *)

Definition call_print (line : string) : M Machine unit :=
  extern (print line) (fun _ => Ok tt).

(** [intro_chain], [question_chain] and [evaluation_chain] are a
    template piped into the one shared [llm]. *)
Definition chain_ainvoke (prompt : string) : M Machine string :=
  extern (llm_invoke prompt) (fun tr => on_llm w tr prompt).

Definition call_tts (speech : string) : M Machine TtsResponse :=
  extern (tts_generate_content speech) (fun tr => on_tts w tr speech).

Definition call_upload_file (path : string) : M Machine File :=
  extern (upload_file path) (fun tr => on_upload_file w tr path).

Definition call_sleep (seconds : Z) : M Machine unit :=
  extern (sleep seconds) (fun _ => Ok tt).

Definition call_get_file (handle : string) : M Machine File :=
  extern (get_file handle) (fun tr => on_get_file w tr handle).

Definition call_generate_content (prompt : string) (f : File)
  : M Machine ContentResponse :=
  extern (generate_content prompt f)
         (fun tr => on_generate_content w tr prompt f).

Definition call_delete_file (handle : string) : M Machine unit :=
  extern (delete_file handle) (fun tr => on_delete_file w tr handle).

(** [await asyncio.gather(t1, t2)]: both tasks are started, the first
    one first; the pair of their values is returned when both succeed,
    and an exception of a failed one is raised otherwise. *)
Definition gather {A B} (t1 : M Machine A) (t2 : M Machine B)
  : M Machine (A * B) :=
  fun s =>
    match t1 s with
    | None => None
    | Some (s1, r1) =>
        match t2 s1 with
        | None => None
        | Some (s2, r2) =>
            Some (s2,
                  match r1, r2 with
                  | Ok a, Ok b => Ok (a, b)
                  | Raise e, Ok _ => Raise e
                  | Ok _, Raise e => Raise e
                  | Raise e1, Raise e2 =>
                      Raise (if first_failure w (trace s) then e1 else e2)
                  end)
        end
    end.

(** ** [text_to_speech] (lines 60-79) *)
Definition text_to_speech (speech : string) : M Machine (option string) :=
  try_except
    (response <- call_tts speech ;;
     audio <- attr (audio_content response) ;;
     ret (Some (Base64.b64encode audio)))
    (fun e =>
       call_print (nl ++ "--- TTS WARNING ---") ;;
       call_print ("Text-to-speech generation failed: " ++ message e) ;;
       call_print "The interview will continue without the voice greeting." ;;
       call_print ("-------------------" ++ nl) ;;
       ret None).

(** ** [generate_interview_content] (lines 81-102) *)
Definition generate_interview_content (role_title role_description : string)
  : M Machine Content :=
  both <- gather (chain_ainvoke (intro_template role_title role_description))
                 (chain_ainvoke (question_template role_description)) ;;
  let intro_text := fst both in
  let questions_raw := snd both in
  greeting_audio_b64 <- text_to_speech intro_text ;;
  ret {| introduction := intro_text;
         content_questions := questions_list questions_raw;
         greetingAudio := greeting_audio_b64 |}.

(** ** [transcribe_video_file] (lines 105-124) *)

(** The one local variable the [finally] block reads. *)
Definition Locals : Type := option File.

(** Reading [gemini_file.<attribute>]. *)
Definition gemini_file : M (Locals * Machine) File :=
  g <- get_local ;;
  match g with
  | Some f => ret f
  | None => raise none_has_no_attribute
  end.

(** Lines 111-113. [fuel] bounds the number of polls. *)
Fixpoint while_processing (fuel : nat) : M (Locals * Machine) unit :=
  f <- gemini_file ;;
  if state f =? "PROCESSING" then
    match fuel with
    | O => out_of_fuel
    | S fuel' =>
        lift (call_sleep 2) ;;
        f' <- lift (call_get_file (name f)) ;;
        set_local (Some f') ;;
        while_processing fuel'
    end
  else ret tt.

Definition transcribe_video_file (fuel : nat) (video_path : string)
  : M Machine string :=
  with_locals (None : Locals)
    (try_finally
       (f <- lift (call_upload_file video_path) ;;
        set_local (Some f) ;;
        while_processing fuel ;;
        f <- gemini_file ;;
        if state f =? "FAILED" then raise processing_failed
        else
          response <- lift (call_generate_content transcribe_instruction f) ;;
          attr (text response))
       (g <- get_local ;;
        match g with
        | Some f => lift (call_delete_file (name f))
        | None => ret tt
        end)).

(** ** [evaluate_transcription] (lines 127-136) *)
Definition evaluate_transcription (role_title full_transcription : string)
  : M Machine string :=
  if negb (truthy full_transcription)
     || negb (truthy (strip full_transcription))
  then ret no_valid_responses
  else
    evaluation <-
      chain_ainvoke (evaluation_template role_title full_transcription) ;;
    ret evaluation.

(* ================================================================ *)
(** * main.py *)

Definition call_fs_open (path : string) : M Machine unit :=
  extern (fs_open path) (fun tr => on_fs_open w tr path).

Definition call_fs_write (path : string) (data : list byte)
  : M Machine unit :=
  extern (fs_write path data) (fun tr => on_fs_write w tr path data).

Definition call_fs_exists (path : string) : M Machine bool :=
  extern (fs_exists path) (fun tr => Ok (on_fs_exists w tr path)).

Definition call_fs_remove (path : string) : M Machine unit :=
  extern (fs_remove path) (fun tr => on_fs_remove w tr path).

(** [interview_data['role_title'] = v] and its two siblings. *)
Definition set_role_title (v : string) : M Machine unit :=
  d <- get_data ;;
  set_data {| role_title := Some v;
              questions := questions d;
              responses := responses d |}.

Definition set_questions (v : list string) : M Machine unit :=
  d <- get_data ;;
  set_data {| role_title := role_title d;
              questions := Some v;
              responses := responses d |}.

Definition set_responses (v : list string) : M Machine unit :=
  d <- get_data ;;
  set_data {| role_title := role_title d;
              questions := questions d;
              responses := Some v |}.

(** Line 86: [interview_data.get('responses', []).append(text)]. With
    the key present the stored list grows in place; without it the
    default is a fresh list that nothing else refers to. *)
Definition append_response (transcribed_text : string) : M Machine unit :=
  d <- get_data ;;
  match responses d with
  | Some l => set_responses (l ++ [transcribed_text])
  | None => ret tt
  end.

Definition generation_error_body : Json :=
  [("error",
    JStr "Could not generate interview content due to an API error.")].

Definition video_error_body : Json :=
  [("error", JStr "Failed to process the video response.")].

Definition success_body (transcribed_text : string) : Json :=
  [("status", JStr "success"); ("transcription", JStr transcribed_text)].

Definition error_message : string :=
  "Could not generate the evaluation due to a server error. Please check the logs.".

(** The context handed to [recruiter_view.html] (the echoed [request]
    left out). Rendering is the template engine's and is not modelled. *)
Definition recruiter_view (title evaluation : string) : Response :=
  TemplateResponse "recruiter_view.html"
                   [("role_title", title); ("evaluation", evaluation)].

(** ** [start_interview] (lines 51-68) *)
Definition start_interview (title role_description : string)
  : M Machine Response :=
  try_except
    (content <- generate_interview_content title role_description ;;
     set_role_title title ;;
     set_questions (content_questions content) ;;
     set_responses [] ;;
     ret (JSONResponse 200 (content_json content)))
    (fun e =>
       call_print ("ERROR in /start_interview: " ++ message e) ;;
       ret (JSONResponse 500 generation_error_body)).

(** ** [submit_response] (lines 70-95) *)
Definition submit_response (fuel : nat) (video : UploadFile)
  : M Machine Response :=
  let video_path := "temp_" ++ filename video in
  try_finally
    (try_except
       (call_fs_open video_path ;;
        data <- attr (read video) ;;
        call_fs_write video_path data ;;
        transcribed_text <- transcribe_video_file fuel video_path ;;
        append_response transcribed_text ;;
        ret (JSONResponse 200 (success_body transcribed_text)))
       (fun e =>
          call_print ("ERROR in /submit_response: " ++ message e) ;;
          ret (JSONResponse 500 video_error_body)))
    (present <- call_fs_exists video_path ;;
     if present then call_fs_remove video_path else ret tt).

(** ** [get_recruiter_report] (lines 97-120) *)
Definition get_recruiter_report : M Machine Response :=
  d <- get_data ;;
  let full_transcription := join blank_line (dict_get (responses d) []) in
  let title := dict_get (role_title d) "N/A" in
  try_except
    (evaluation <- evaluate_transcription title full_transcription ;;
     ret (recruiter_view title evaluation))
    (fun e =>
       call_print ("ERROR in /recruiter_report: " ++ message e) ;;
       ret (recruiter_view title error_message)).

End Services.

(* ================================================================== *)
(** * Specification-side definitions *)

(** The question parser as the specification words it: split on line
    breaks, trim, discard the empty lines, keep the lines that start
    with a decimal digit. *)
Definition questions_spec (questions_raw : string) : list string :=
  filter first_isdecimal
         (filter truthy (map strip (split LF questions_raw))).

(** The remote pipeline walks from one file state to a terminal one:
    [polls_to w f tr f' tr'] when, polled from handle [f] at trace [tr],
    the service answers PROCESSING zero or more times and then the
    terminal handle [f'], the trace having grown to [tr']. *)
Inductive polls_to (w : World) : File -> Trace -> File -> Trace -> Prop :=
| polls_done f tr :
    (state f =? "PROCESSING") = false ->
    polls_to w f tr f tr
| polls_next f tr f1 f' tr' :
    (state f =? "PROCESSING") = true ->
    on_get_file w (tr ++ [sleep 2])%list (name f) = Ok f1 ->
    polls_to w f1 (tr ++ [sleep 2; get_file (name f)])%list f' tr' ->
    polls_to w f tr f' tr'.

Definition is_delete (ev : Event) : bool :=
  match ev with delete_file _ => true | _ => false end.

Definition is_print (ev : Event) : bool :=
  match ev with print _ => true | _ => false end.

Definition is_get_file (ev : Event) : bool :=
  match ev with get_file _ => true | _ => false end.

Definition is_poll (ev : Event) : bool :=
  match ev with sleep _ | get_file _ => true | _ => false end.

(** What the [finally] block of [transcribe_video_file] makes of an
    outcome [r] of the [try] block, with handle [f] in hand. *)
Definition release (w : World) (f : File) (sr : Machine * result string)
  : Machine * result string :=
  (logged (fst sr) [delete_file (name f)],
   match on_delete_file w (trace (fst sr)) (name f) with
   | Ok _ => snd sr
   | Raise e => Raise e
   end).

(** Lines 118-121: the extraction request on handle [f]. *)
Definition extract (w : World) (f : File) (s : Machine)
  : Machine * result string :=
  (logged s [generate_content transcribe_instruction f],
   match on_generate_content w (trace s) transcribe_instruction f with
   | Ok response => text response
   | Raise e => Raise e
   end).

(** What a run of [transcribe_video_file] comes to once the service has
    reached the terminal handle [f1] at trace [tr1]: on FAILED the delete
    request alone follows and the run raises; otherwise the extraction
    request and the delete request follow, and the outcome is that of
    reading the extracted text, unless the delete request fails. *)
Definition terminal_outcome (w : World) (f1 : File) (tr1 : Trace)
           (s' : Machine) (r : result string) : Prop :=
  if state f1 =? "FAILED" then
    trace s' = (tr1 ++ [delete_file (name f1)])%list
    /\ r = match on_delete_file w tr1 (name f1) with
           | Ok _ => Raise processing_failed
           | Raise e => Raise e
           end
  else
    trace s' = (tr1 ++ [generate_content transcribe_instruction f1;
                        delete_file (name f1)])%list
    /\ r = match on_delete_file
                   w (tr1 ++ [generate_content transcribe_instruction f1])%list
                   (name f1)
           with
           | Raise e => Raise e
           | Ok _ =>
               match on_generate_content w tr1 transcribe_instruction f1 with
               | Ok response => text response
               | Raise e => Raise e
               end
           end.

(** Line 77: where [submit_response] keeps the uploaded clip. *)
Definition temp_path (video : UploadFile) : string :=
  "temp_" ++ filename video.

(** Lines 94-95, the [finally] block of [submit_response]: the exception
    it ends with, if any. *)
Definition cleanup_error (w : World) (tr : Trace) (path : string)
  : option Exn :=
  if on_fs_exists w tr path then
    match on_fs_remove w (tr ++ [fs_exists path])%list path with
    | Raise e => Some e
    | Ok _ => None
    end
  else None.

(** A computation that leaves [interview_data] alone when it is run
    without a [responses] key. *)
Definition frames {A} (m : M Machine A) : Prop :=
  forall s s' r,
    responses (interview_data s) = None ->
    m s = Some (s', r) ->
    interview_data s' = interview_data s.

(** The four lines [text_to_speech] prints when it gives up. *)
Definition tts_warning (e : Exn) : list Event :=
  [print (nl ++ "--- TTS WARNING ---");
   print ("Text-to-speech generation failed: " ++ message e);
   print "The interview will continue without the voice greeting.";
   print ("-------------------" ++ nl)].

(** The exception the speech step ends with, when it fails. *)
Definition tts_error (w : World) (tr : Trace) (speech : string) : option Exn :=
  match on_tts w tr speech with
  | Raise e => Some e
  | Ok response =>
      match audio_content response with Raise e => Some e | Ok _ => None end
  end.

(* ================================================================== *)
(** * The routes of the application *)

(** [get_candidate_view] (lines 46-49): the candidate page, with the
    echoed [request] as its only context. *)
Definition get_candidate_view : M Machine Response :=
  ret (TemplateResponse "candidate_view.html" []).

(** The four routes that [app] declares. *)
Inductive Request : Type :=
| GET_root                                              (* GET / *)
| POST_start_interview (title role_description : string)
| POST_submit_response (video : UploadFile)
| GET_recruiter_report.

Definition route (w : World) (fuel : nat) (req : Request)
  : M Machine Response :=
  match req with
  | GET_root => get_candidate_view
  | POST_start_interview title role_description =>
      start_interview w title role_description
  | POST_submit_response video => submit_response w fuel video
  | GET_recruiter_report => get_recruiter_report w
  end.

(** Requests served one after the other. An exception that leaves a
    handler is answered by the framework, and the next request is
    served on the state the handler left. *)
Fixpoint serve (w : World) (fuel : nat) (reqs : list Request) (s : Machine)
  : option Machine :=
  match reqs with
  | [] => Some s
  | req :: rest =>
      match route w fuel req s with
      | None => None
      | Some (s1, _) => serve w fuel rest s1
      end
  end.

(* ================================================================== *)
(** * Predicates on text, traces and the session dict *)

(** The text has no line feed. *)
Definition no_LF (s : string) : bool :=
  all_chars (fun c => negb (Ascii.eqb c LF)) s.

(** A character of the Base64 alphabet, or the padding. *)
Definition is_base64_char (c : ascii) : bool :=
  let n := code c in
  between 65 90 n || between 97 122 n || between 48 57 n
  || Nat.eqb n 43 || Nat.eqb n 47 || Nat.eqb n 61.

(** [k] polls of handle [h]: a two-second sleep before each. *)
Fixpoint poll_events (h : string) (k : nat) : list Event :=
  match k with
  | O => []
  | S k' => sleep 2 :: get_file h :: poll_events h k'
  end.


(** The dict has its three keys, or none. *)
Definition keys_together (d : InterviewData) : bool :=
  match role_title d, questions d, responses d with
  | None, None, None => true
  | Some _, Some _, Some _ => true
  | _, _, _ => false
  end.

(** The dict with one more response. *)
Definition answered (d : InterviewData) (l : list string) (t : string)
  : InterviewData :=
  {| role_title := role_title d; questions := questions d;
     responses := Some (l ++ [t])%list |}.

(** From [d] to [d'] nothing changed, or one response joined the end of
    the stored list. *)
Definition one_more (d d' : InterviewData) : Prop :=
  d' = d \/ exists l t, responses d = Some l /\ d' = answered d l t.

(** The stored questions, if any, are trimmed and start with a digit
    character. *)
Definition questions_parsed (d : InterviewData) : Prop :=
  match questions d with
  | Some qs => Forall (fun q => first_isdigit q = true /\ strip q = q) qs
  | None => True
  end.

(** How many responses are stored. *)
Definition response_count (d : InterviewData) : nat :=
  match responses d with Some l => List.length l | None => 0 end.

Definition is_submit (req : Request) : bool :=
  match req with POST_submit_response _ => true | _ => false end.

(** Every finished run of [m] takes the session dict to one related by
    [R]. *)
Definition keeps {A} (R : InterviewData -> InterviewData -> Prop)
           (m : M Machine A) : Prop :=
  forall s s' r, m s = Some (s', r) -> R (interview_data s) (interview_data s').

(** The dict after a successful [start_interview]. *)
Definition started (title : string) (qs : list string) : InterviewData :=
  {| role_title := Some title; questions := Some qs; responses := Some [] |}.

(** The [try]/[except] part of [submit_response] (lines 78-91). *)
Definition submit_try (w : World) (fuel : nat) (video : UploadFile)
  : M Machine Response :=
  try_except
    (call_fs_open w (temp_path video) ;;
     data <- attr (read video) ;;
     call_fs_write w (temp_path video) data ;;
     transcribed_text <- transcribe_video_file w fuel (temp_path video) ;;
     append_response transcribed_text ;;
     ret (JSONResponse 200 (success_body transcribed_text)))%py
    (fun e =>
       call_print ("ERROR in /submit_response: " ++ message e) ;;
       ret (JSONResponse 500 video_error_body))%py.

(** The [finally] part of [submit_response] (lines 92-95). *)
Definition submit_finally (w : World) (video : UploadFile) : M Machine unit :=
  (present <- call_fs_exists w (temp_path video) ;;
   if present then call_fs_remove w (temp_path video) else ret tt)%py.

(** Where the [except] block of [submit_response] leaves things. *)
Definition submit_failed (s : Machine) (e : Exn)
  : option (Machine * result Response) :=
  Some (logged s [print ("ERROR in /submit_response: " ++ message e)],
        Ok (JSONResponse 500 video_error_body)).

(** The exception that stops [submit_response] from saving the clip: of
    [open], of reading the upload, or of [write]. *)
Definition save_error (w : World) (tr : Trace) (video : UploadFile)
  : option Exn :=
  match on_fs_open w tr (temp_path video) with
  | Raise e => Some e
  | Ok _ =>
      match read video with
      | Raise e => Some e
      | Ok data =>
          match on_fs_write w (tr ++ [fs_open (temp_path video)])%list
                            (temp_path video) data with
          | Raise e => Some e
          | Ok _ => None
          end
      end
  end.

(** The dict after [append_response]. *)
Definition with_response (d : InterviewData) (t : string) : InterviewData :=
  match responses d with
  | Some l => answered d l t
  | None => d
  end.

(** The events of the [finally] block of [submit_response]. *)
Definition cleanup_events (w : World) (tr : Trace) (path : string)
  : list Event :=
  if on_fs_exists w tr path then [fs_exists path; fs_remove path]
  else [fs_exists path].

(* ================================================================== *)
(** * Sample worlds *)

Module Sample.

(** A service that answers the polls from a script: the upload answers
    the first state, the k-th poll the k-th next one, and [last] once
    the script is over. The other calls answer as given. *)
Record Script : Type := {
  states : list string;
  last : string;
  extraction : result ContentResponse;
  deletion : result unit;
  llm : string -> result string;
  tts : result TtsResponse
}.

Definition polls_so_far (tr : Trace) : nat :=
  List.length (filter is_get_file tr).

Definition world (sc : Script) : World :=
  {| on_upload_file := fun _ _ =>
       Ok {| name := "files/clip"; state := nth 0 (states sc) (last sc) |};
     on_get_file := fun tr handle =>
       Ok {| name := handle;
             state := nth (S (polls_so_far tr)) (states sc) (last sc) |};
     on_generate_content := fun _ _ _ => extraction sc;
     on_delete_file := fun _ _ => deletion sc;
     on_tts := fun _ _ => tts sc;
     on_llm := fun _ prompt => llm sc prompt;
     first_failure := fun _ => true;
     on_fs_open := fun _ _ => Ok tt;
     on_fs_write := fun _ _ _ => Ok tt;
     on_fs_exists := fun _ _ => true;
     on_fs_remove := fun _ _ => Ok tt |}.

Definition heard (t : string) : result ContentResponse :=
  Ok {| text := Ok t |}.

Definition numbered : string :=
  "Here are the questions:" ++ nl ++ "1. Why Rust?" ++ nl ++ nl
  ++ "  2. Tell me about a failure. " ++ nl ++ "Good luck!".

Definition model (prompt : string) : result string :=
  if prefix "Based on" prompt then Ok numbered
  else if prefix "You are" prompt then Ok "Welcome!"
  else Ok "**1. Overall Summary:** fine.".

Definition silent : result TtsResponse := Raise (Exception "quota").

(** Two polls in PROCESSING, then ACTIVE; everything succeeds. *)
Definition ready : Script :=
  {| states := ["PROCESSING"; "PROCESSING"]; last := "ACTIVE";
     extraction := heard "I led the migration.";
     deletion := Ok tt; llm := model; tts := silent |}.

(** The pipeline ends in FAILED. *)
Definition failed : Script :=
  {| states := ["PROCESSING"]; last := "FAILED";
     extraction := heard "unused";
     deletion := Ok tt; llm := model; tts := silent |}.

(** The clip has no speech: the extraction answers the empty text. *)
Definition mute : Script :=
  {| states := []; last := "ACTIVE";
     extraction := heard "";
     deletion := Ok tt; llm := model; tts := silent |}.

(** The delete request is refused. *)
Definition undeletable : Script :=
  {| states := []; last := "ACTIVE";
     extraction := heard "I led the migration.";
     deletion := Raise (Exception "403 permission denied");
     llm := model; tts := silent |}.

(** The question model is down. *)
Definition no_questions : Script :=
  {| states := []; last := "ACTIVE";
     extraction := heard "x";
     deletion := Ok tt;
     llm := fun prompt =>
              if prefix "Based on" prompt
              then Raise (Exception "429 quota") else Ok "Welcome!";
     tts := silent |}.

Definition uploaded (st : string) : File :=
  {| name := "files/clip"; state := st |}.

(** The trace of a transcription against [ready]. *)
Definition ready_trace : Trace :=
  [upload_file "temp_a.webm";
   sleep 2; get_file "files/clip"; sleep 2; get_file "files/clip";
   generate_content transcribe_instruction (uploaded "ACTIVE");
   delete_file "files/clip"].

(** The trace of a transcription with no poll. *)
Definition direct_trace : Trace :=
  [upload_file "temp_a.webm";
   generate_content transcribe_instruction (uploaded "ACTIVE");
   delete_file "files/clip"].

Definition fresh : Machine :=
  {| interview_data := interview_data_init; trace := [] |}.

Definition intro_prompt : string :=
  intro_template "Backend Engineer" "Build APIs".

Definition question_prompt : string := question_template "Build APIs".

(** [ready], except that the extraction hears a different answer in
    the second clip (the one sent after a handle was deleted). *)
Definition two_clips : World :=
  let base := world ready in
  {| on_upload_file := on_upload_file base;
     on_get_file := on_get_file base;
     on_generate_content := fun tr _ _ =>
       if existsb is_delete tr then heard "Then I wrote the tests."
       else heard "I led the migration.";
     on_delete_file := on_delete_file base;
     on_tts := on_tts base;
     on_llm := on_llm base;
     first_failure := first_failure base;
     on_fs_open := on_fs_open base;
     on_fs_write := on_fs_write base;
     on_fs_exists := on_fs_exists base;
     on_fs_remove := on_fs_remove base |}.

(** An interview: start, two answers, the report. *)
Definition interview : M Machine Response :=
  (start_interview two_clips "Backend Engineer" "Build APIs" ;;
   submit_response two_clips 5 {| filename := "a.webm"; read := Ok [] |} ;;
   submit_response two_clips 5 {| filename := "b.webm"; read := Ok [] |} ;;
   get_recruiter_report two_clips)%py.

Definition clip : UploadFile :=
  {| filename := "a.webm"; read := Ok [x01; x02]%byte |}.


(** The speech model answers three bytes of audio. *)
Definition spoken : Script :=
  {| states := []; last := "ACTIVE";
     extraction := heard "I led the migration.";
     deletion := Ok tt; llm := model;
     tts := Ok {| audio_content := Ok [x4d; x61; x6e]%byte |} |}.

(** The upload is refused. *)
Definition no_upload : World :=
  let base := world ready in
  {| on_upload_file := fun _ _ => Raise (Exception "413 too large");
     on_get_file := on_get_file base;
     on_generate_content := on_generate_content base;
     on_delete_file := on_delete_file base;
     on_tts := on_tts base;
     on_llm := on_llm base;
     first_failure := first_failure base;
     on_fs_open := on_fs_open base;
     on_fs_write := on_fs_write base;
     on_fs_exists := on_fs_exists base;
     on_fs_remove := on_fs_remove base |}.


(** A session under way: one answer stored. *)
Definition under_way : Machine :=
  {| interview_data :=
       {| role_title := Some "Backend Engineer";
          questions := Some ["1. Why Rust?"];
          responses := Some ["First answer."] |};
     trace := [] |}.

(** A whole session as requests: the page, the start, two answers and
    the report; and the state it ends in. *)
Definition session : list Request :=
  [GET_root;
   POST_start_interview "Backend Engineer" "Build APIs";
   POST_submit_response {| filename := "a.webm"; read := Ok [] |};
   POST_submit_response {| filename := "b.webm"; read := Ok [] |};
   GET_recruiter_report].

Definition after_session : Machine :=
  Eval vm_compute in
    match serve two_clips 5 session fresh with
    | Some s => s
    | None => fresh
    end.

(** The state after a restart of the session under way. *)
Definition restarted : Machine :=
  Eval vm_compute in
    match start_interview (world ready) "Data Engineer" "Build pipelines"
                          under_way with
    | Some (s, _) => s
    | None => fresh
    end.

(** A line that starts with SUPERSCRIPT TWO (U+00B2). *)
Definition squared : string := String (ascii_of_nat 178) " is not a question".

End Sample.

(* ================================================================== *)
(** * Facts about the text operations *)

Local Open Scope list_scope.

Section TextFacts.

Lemma rstrip_empty (s : string) :
  truthy (rstrip s) = negb (whitespace_only s).
Proof.
  induction s as [|c s IH]; [reflexivity|].
  unfold whitespace_only in *. simpl.
  destruct (rstrip s) eqn:E; simpl in IH.
  - destruct (all_chars isspace s); [|discriminate].
    destruct (isspace c); reflexivity.
  - destruct (all_chars isspace s); [discriminate|].
    now rewrite andb_false_r.
Qed.

Lemma whitespace_only_lstrip (s : string) :
  whitespace_only (lstrip s) = whitespace_only s.
Proof.
  unfold whitespace_only.
  induction s as [|c s IH]; [reflexivity|].
  simpl. destruct (isspace c) eqn:E; simpl; [exact IH|].
  now rewrite E.
Qed.

Lemma truthy_strip (s : string) :
  truthy (strip s) = negb (whitespace_only s).
Proof.
  unfold strip. now rewrite rstrip_empty, whitespace_only_lstrip.
Qed.

Lemma truthy_true (s : string) : truthy s = true -> s <> EmptyString.
Proof. destruct s; [discriminate | intros _ H; discriminate H]. Qed.

Lemma lstrip_head c t s : lstrip s = String c t -> isspace c = false.
Proof.
  induction s as [|a s IH]; simpl; [discriminate|].
  destruct (isspace a) eqn:E; [exact IH|].
  intros H. now injection H as <- _.
Qed.

Lemma rstrip_head c t :
  isspace c = false -> exists t', rstrip (String c t) = String c t'.
Proof.
  intros H. simpl. destruct (rstrip t).
  - rewrite H. now exists EmptyString.
  - eexists. reflexivity.
Qed.

Lemma rstrip_cons c s :
  rstrip (String c s) =
  match rstrip s with
  | EmptyString => if isspace c then EmptyString else String c EmptyString
  | r => String c r
  end.
Proof. reflexivity. Qed.

Lemma rstrip_idem (s : string) : rstrip (rstrip s) = rstrip s.
Proof.
  induction s as [|c s IH]; [reflexivity|].
  rewrite rstrip_cons. destruct (rstrip s) as [|a r] eqn:E.
  - destruct (isspace c) eqn:Hc; [reflexivity|].
    rewrite rstrip_cons. simpl. now rewrite Hc.
  - rewrite rstrip_cons, IH. reflexivity.
Qed.

(** Trimming a trimmed text changes nothing. *)
Lemma strip_idem (s : string) : strip (strip s) = strip s.
Proof.
  unfold strip. destruct (lstrip s) as [|c t] eqn:E; [reflexivity|].
  pose proof (@lstrip_head c t s E) as Hc.
  destruct (@rstrip_head c t Hc) as [t' Ht'].
  rewrite Ht'. simpl lstrip. rewrite Hc. rewrite <- Ht'.
  apply rstrip_idem.
Qed.

Lemma isdecimal_isdigit c : isdecimal c = true -> isdigit c = true.
Proof. unfold isdecimal, isdigit. intros ->. reflexivity. Qed.

Lemma first_isdecimal_isdigit s :
  first_isdecimal s = true -> first_isdigit s = true.
Proof. destruct s; simpl; [discriminate | apply isdecimal_isdigit]. Qed.

(** The condition of [evaluate_transcription], line 129. *)
Lemma no_transcript_test (t : string) :
  negb (truthy t) || negb (truthy (strip t)) = whitespace_only t.
Proof.
  rewrite truthy_strip, negb_involutive.
  destruct t; [reflexivity|]. reflexivity.
Qed.

Lemma filter_map_strip (p : string -> bool) (l : list string) :
  map strip (filter (fun q => p (strip q)) l) = filter p (map strip l).
Proof.
  induction l as [|q l IH]; [reflexivity|].
  simpl. destruct (p (strip q)); simpl; now rewrite IH.
Qed.

Lemma filter_twice {A} (p q : A -> bool) (l : list A) :
  filter q (filter p l) = filter (fun x => p x && q x) l.
Proof.
  induction l as [|x l IH]; [reflexivity|].
  simpl. destruct (p x); simpl; [destruct (q x)|]; now rewrite IH.
Qed.

Lemma questions_list_pipeline (raw : string) :
  questions_list raw =
  filter first_isdigit (filter truthy (map strip (split LF raw))).
Proof.
  unfold questions_list. rewrite filter_twice.
  exact (filter_map_strip (fun e => truthy e && first_isdigit e) _).
Qed.

End TextFacts.

(* ================================================================== *)
(** * The question parser and the evaluation short-circuit *)

Section Parsing.

Lemma questions_list_entries (raw : string) :
  Forall (fun q => q <> EmptyString /\ first_isdigit q = true
                   /\ strip q = q)
         (questions_list raw).
Proof.
  apply Forall_forall. intros q Hq.
  unfold questions_list in Hq.
  apply in_map_iff in Hq. destruct Hq as [x [<- Hx]].
  apply filter_In in Hx. destruct Hx as [_ Hk].
  unfold keep_question in Hk. apply andb_prop in Hk.
  destruct Hk as [Ht Hd].
  split; [now apply truthy_true|]. split; [exact Hd | apply strip_idem].
Qed.

Lemma questions_spec_of_list (raw : string) :
  questions_spec raw = filter first_isdecimal (questions_list raw).
Proof.
  rewrite questions_list_pipeline. unfold questions_spec.
  rewrite (filter_twice first_isdigit first_isdecimal).
  apply filter_ext. intros q.
  destruct (first_isdecimal q) eqn:E.
  - now rewrite (first_isdecimal_isdigit _ E).
  - now rewrite andb_false_r.
Qed.

Lemma all_chars_lstrip p s :
  all_chars p s = true -> all_chars p (lstrip s) = true.
Proof.
  induction s as [|c s IH]; [reflexivity|].
  intros H. simpl. destruct (isspace c); [|exact H].
  simpl in H. apply andb_prop in H. now apply IH.
Qed.

Lemma all_chars_rstrip p s :
  all_chars p s = true -> all_chars p (rstrip s) = true.
Proof.
  induction s as [|c s IH]; [reflexivity|].
  intros H. simpl in H. apply andb_prop in H. destruct H as [Hc Hs].
  rewrite rstrip_cons. specialize (IH Hs).
  destruct (rstrip s).
  - destruct (isspace c); simpl; [reflexivity | now rewrite Hc].
  - change (p c && all_chars p (String a s0) = true).
    now rewrite Hc, IH.
Qed.

Lemma all_chars_split p sep s :
  all_chars p s = true ->
  Forall (fun x => all_chars p x = true) (split sep s).
Proof.
  induction s as [|c s IH]; intros H; simpl.
  - now constructor.
  - simpl in H. apply andb_prop in H. destruct H as [Hc Hs].
    specialize (IH Hs). destruct (Ascii.eqb c sep).
    + now constructor.
    + destruct (split sep s) as [|piece rest]; constructor; simpl;
        try rewrite Hc; auto.
      * now inversion IH.
      * now inversion IH.
Qed.

Lemma isdigit_ascii c :
  Nat.ltb (code c) 128 = true -> isdigit c = isdecimal c.
Proof.
  unfold isdigit, isdecimal. intros H. apply Nat.ltb_lt in H.
  destruct (Nat.eqb_spec (code c) 178); [lia|].
  destruct (Nat.eqb_spec (code c) 179); [lia|].
  destruct (Nat.eqb_spec (code c) 185); [lia|].
  now rewrite !orb_false_r.
Qed.

(** On text below U+0080 the parser of the source and the parser of
    the specification agree. *)
Lemma questions_list_ascii (raw : string) :
  isascii raw = true -> questions_list raw = questions_spec raw.
Proof.
  intros H. rewrite questions_list_pipeline. unfold questions_spec.
  apply filter_ext_in. intros q Hq.
  apply filter_In in Hq. destruct Hq as [Hq _].
  apply in_map_iff in Hq. destruct Hq as [x [<- Hx]].
  pose proof (all_chars_split _ LF _ H) as Hall.
  rewrite Forall_forall in Hall. specialize (Hall _ Hx).
  apply all_chars_lstrip, all_chars_rstrip in Hall.
  fold (strip x) in Hall. destruct (strip x) as [|c t]; [reflexivity|].
  simpl in Hall. apply andb_prop in Hall.
  simpl. now apply isdigit_ascii.
Qed.

End Parsing.

(** C6, as stated, fails: a line that starts with SUPERSCRIPT TWO passes
    [str.isdigit] and is kept, yet its first character is no decimal
    digit, and the parser of the specification drops it. *)
Lemma questions_list_keeps_superscript :
  questions_list Sample.squared = [Sample.squared]
  /\ first_isdecimal Sample.squared = false
  /\ questions_spec Sample.squared = []
  /\ ~ Forall (fun q => first_isdecimal q = true)
              (questions_list Sample.squared).
Proof.
  split; [reflexivity|]. split; [reflexivity|]. split; [reflexivity|].
  intros H. inversion H as [|q l Hq _]. discriminate Hq.
Qed.

(** C6, amended: [questions_list] splits the raw text at line feeds,
    trims every line, drops the empty ones and keeps exactly those whose
    first character passes [str.isdigit]; every entry is non-empty,
    trimmed, and starts with such a character. The entries that start
    with a decimal digit are exactly the list of the specification, and
    on text below U+0080 the two lists are the same. *)
Theorem questions_list_parsed (raw : string) :
  questions_list raw
  = filter first_isdigit (filter truthy (map strip (split LF raw)))
  /\ Forall (fun q => q <> EmptyString /\ first_isdigit q = true
                      /\ strip q = q)
            (questions_list raw)
  /\ questions_spec raw = filter first_isdecimal (questions_list raw)
  /\ (isascii raw = true -> questions_list raw = questions_spec raw).
Proof.
  split; [apply questions_list_pipeline|].
  split; [apply questions_list_entries|].
  split; [apply questions_spec_of_list | apply questions_list_ascii].
Qed.

Lemma questions_list_parsed_witness :
  questions_list Sample.numbered = questions_spec Sample.numbered.
Proof.
  apply (proj2 (proj2 (proj2 (questions_list_parsed Sample.numbered)))).
  reflexivity.
Defined.

Lemma evaluate_transcription_eq
      (w : World) (title t : string) (s : Machine) :
  evaluate_transcription w title t s =
  if whitespace_only t
  then Some (s, Ok no_valid_responses)
  else Some (logged s [llm_invoke (evaluation_template title t)],
             on_llm w (trace s) (evaluation_template title t)).
Proof.
  unfold evaluate_transcription. rewrite no_transcript_test.
  destruct (whitespace_only t); [reflexivity|].
  unfold bind, chain_ainvoke, extern, ret.
  destruct (on_llm w (trace s) (evaluation_template title t)); reflexivity.
Qed.

(** C7: for a transcript that is empty or white space only,
    [evaluate_transcription] returns the fixed sentinel and the trace is
    untouched (no call goes out); for any other transcript the trace grows
    by exactly one model call, on the evaluation prompt of that role and
    transcript, and the outcome is that call's. *)
Theorem evaluate_transcription_cases
        (w : World) (title t : string) (s : Machine) :
  evaluate_transcription w title t s =
  if whitespace_only t
  then Some (s, Ok no_valid_responses)
  else Some (logged s [llm_invoke (evaluation_template title t)],
             on_llm w (trace s) (evaluation_template title t)).
Proof.
  unfold evaluate_transcription. rewrite no_transcript_test.
  destruct (whitespace_only t).
  - reflexivity.
  - unfold bind, chain_ainvoke, extern, ret.
    destruct (on_llm w (trace s) (evaluation_template title t)); reflexivity.
Qed.

(* ================================================================== *)
(** * Runs of [transcribe_video_file] *)

Lemma logged_logged (s : Machine) (a b : list Event) :
  logged (logged s a) b = logged s (a ++ b).
Proof. unfold logged. simpl. now rewrite app_assoc. Qed.

Lemma logged_nil (s : Machine) : logged s [] = s.
Proof. destruct s. unfold logged. simpl. now rewrite app_nil_r. Qed.

Section Transcription.
Variable w : World.

(** One turn of the loop of lines 111-113. *)
Lemma while_processing_eq (fuel : nat) (f : File) (s : Machine) :
  while_processing w fuel (Some f, s) =
  if state f =? "PROCESSING" then
    match fuel with
    | O => None
    | S fuel' =>
        match on_get_file w (trace s ++ [sleep 2]) (name f) with
        | Ok f' =>
            while_processing w fuel'
              (Some f', logged s [sleep 2; get_file (name f)])
        | Raise e =>
            Some ((Some f, logged s [sleep 2; get_file (name f)]), Raise e)
        end
    end
  else Some ((Some f, s), Ok tt).
Proof.
  destruct fuel as [|fuel']; simpl;
    unfold bind, gemini_file, get_local, ret, out_of_fuel; simpl;
    destruct (state f =? "PROCESSING"); try reflexivity.
  unfold lift, call_sleep, call_get_file, extern, set_local. simpl.
  rewrite logged_logged. simpl.
  destruct (on_get_file w (trace s ++ [sleep 2]) (name f)); reflexivity.
Qed.

(** Whatever way the loop ends, the variable still holds a handle, the
    session dict is as before and only polls went out; a normal exit
    leaves a handle that is no longer PROCESSING; and the handle keeps
    its name when the service answers every poll with the name asked. *)
Lemma while_processing_inv (fuel : nat) :
  forall f s ls r,
    while_processing w fuel (Some f, s) = Some (ls, r) ->
    exists f' evs,
      ls = (Some f', logged s evs)
      /\ forallb is_poll evs = true
      /\ (r = Ok tt -> (state f' =? "PROCESSING") = false)
      /\ ((forall tr h g, on_get_file w tr h = Ok g -> name g = h) ->
          name f' = name f).
Proof.
  induction fuel as [|fuel' IH]; intros f s ls r H;
    rewrite while_processing_eq in H;
    destruct (state f =? "PROCESSING") eqn:Est.
  - discriminate.
  - injection H as <- <-. exists f, []. rewrite logged_nil. auto.
  - destruct (on_get_file w (trace s ++ [sleep 2]) (name f)) as [f1|e] eqn:Eg.
    + apply IH in H. destruct H as [f' [evs [-> [Hp [Hs Hn]]]]].
      exists f', ([sleep 2; get_file (name f)] ++ evs).
      rewrite logged_logged. split; [reflexivity|].
      split; [exact Hp|]. split; [exact Hs|].
      intros Hw. rewrite (Hn Hw). exact (Hw _ _ _ Eg).
    + injection H as <- <-. exists f, [sleep 2; get_file (name f)].
      split; [reflexivity|]. split; [reflexivity|].
      split; [discriminate | reflexivity].
  - injection H as <- <-. exists f, []. rewrite logged_nil. auto.
Qed.

(** The whole function, flattened: the upload, the loop, then the
    [finally] block applied to what the [try] block came to. *)
Lemma transcribe_video_file_eq (fuel : nat) (path : string) (s : Machine) :
  transcribe_video_file w fuel path s =
  match on_upload_file w (trace s) path with
  | Raise e => Some (logged s [upload_file path], Raise e)
  | Ok f0 =>
      match while_processing w fuel (Some f0, logged s [upload_file path])
      with
      | None => None
      | Some ((None, s1), Ok _) => Some (s1, Raise none_has_no_attribute)
      | Some ((None, s1), Raise e) => Some (s1, Raise e)
      | Some ((Some f, s1), Raise e) => Some (release w f (s1, Raise e))
      | Some ((Some f, s1), Ok _) =>
          if state f =? "FAILED"
          then Some (release w f (s1, Raise processing_failed))
          else Some (release w f (extract w f s1))
      end
  end.
Proof.
  unfold transcribe_video_file, with_locals, try_finally.
  unfold bind at 1. unfold lift at 1, call_upload_file, extern. simpl.
  destruct (on_upload_file w (trace s) path) as [f0|e]; simpl;
    [|reflexivity].
  unfold bind at 1. unfold set_local at 1. simpl.
  unfold bind at 1.
  destruct (while_processing w fuel (Some f0, logged s [upload_file path]))
    as [[[[f|] s1] [[]|e]]|]; simpl; try reflexivity.
  - unfold bind, gemini_file, get_local, ret, raise. simpl.
    destruct (state f =? "FAILED"); simpl.
    + unfold lift, call_delete_file, extern, release. simpl.
      destruct (on_delete_file w (trace s1) (name f)) as [[]|]; reflexivity.
    + unfold lift, call_generate_content, call_delete_file, extern, attr,
        release, extract. simpl.
      destruct (on_generate_content w (trace s1) transcribe_instruction f)
        as [response|e]; simpl;
        destruct (on_delete_file w _ (name f)) as [[]|]; reflexivity.
  - unfold bind, get_local, lift, call_delete_file, extern, release. simpl.
    destruct (on_delete_file w (trace s1) (name f)) as [[]|]; reflexivity.
Qed.

(** When the service walks to a terminal handle, the loop gets there
    with any fuel from some point on. *)
Lemma polls_to_while f tr f' tr' :
  polls_to w f tr f' tr' ->
  forall d, exists fuel0, forall fuel, fuel0 <= fuel ->
    while_processing w fuel (Some f, {| interview_data := d; trace := tr |})
    = Some ((Some f', {| interview_data := d; trace := tr' |}), Ok tt).
Proof.
  induction 1 as [f tr Hst | f tr f1 f' tr' Hst Hg _ IH]; intros d.
  - exists 0. intros fuel _. rewrite while_processing_eq, Hst. reflexivity.
  - destruct (IH d) as [fuel0 Hfuel]. exists (S fuel0).
    intros [|fuel] Hle; [lia|].
    rewrite while_processing_eq, Hst. simpl trace. rewrite Hg.
    apply Hfuel. lia.
Qed.

Lemma polls_no_delete (evs : list Event) :
  forallb is_poll evs = true -> existsb is_delete evs = false.
Proof.
  induction evs as [|ev evs IH]; [reflexivity|].
  simpl. intros H. apply andb_prop in H. destruct H as [Hev Hevs].
  rewrite (IH Hevs). destruct ev; try discriminate; reflexivity.
Qed.

Lemma polls_no_print (evs : list Event) :
  forallb is_poll evs = true -> existsb is_print evs = false.
Proof.
  induction evs as [|ev evs IH]; [reflexivity|].
  simpl. intros H. apply andb_prop in H. destruct H as [Hev Hevs].
  rewrite (IH Hevs). destruct ev; try discriminate; reflexivity.
Qed.

Lemma release_shape s path polls body f r0 :
  release w f (logged (logged s [upload_file path]) (polls ++ body), r0)
  = (logged s ((upload_file path :: polls ++ body)
               ++ [delete_file (name f)]),
     match on_delete_file
             w (trace s ++ upload_file path :: polls ++ body) (name f)
     with
     | Ok _ => r0
     | Raise e => Raise e
     end).
Proof.
  unfold release. simpl. rewrite !logged_logged. simpl.
  rewrite <- !app_assoc. reflexivity.
Qed.

(** Every finished run has one of two shapes: the upload raised and
    nothing else happened; or the upload gave a handle, polls followed,
    then at most the extraction request, then the delete request, whose
    failure is the outcome whatever the [try] block came to. *)
Lemma transcribe_video_file_inv fuel path s s' r :
  transcribe_video_file w fuel path s = Some (s', r) ->
  (exists e, on_upload_file w (trace s) path = Raise e
             /\ s' = logged s [upload_file path] /\ r = Raise e)
  \/
  (exists f0 f polls body r0,
      on_upload_file w (trace s) path = Ok f0
      /\ forallb is_poll polls = true
      /\ ((forall tr h g, on_get_file w tr h = Ok g -> name g = h) ->
          name f = name f0)
      /\ (body = [] \/ body = [generate_content transcribe_instruction f])
      /\ s' = logged s ((upload_file path :: polls ++ body)
                        ++ [delete_file (name f)])
      /\ r = match on_delete_file
                     w (trace s ++ upload_file path :: polls ++ body)
                     (name f)
             with
             | Ok _ => r0
             | Raise e => Raise e
             end).
Proof.
  rewrite transcribe_video_file_eq.
  destruct (on_upload_file w (trace s) path) as [f0|e] eqn:Eup.
  2:{ intros H. injection H as <- <-. left. now exists e. }
  destruct (while_processing w fuel (Some f0, logged s [upload_file path]))
    as [[ls rl]|] eqn:Ew; [|discriminate].
  destruct (while_processing_inv _ _ _ Ew) as [f [polls [-> [Hp [_ Hn]]]]].
  intros H. right. exists f0, f, polls.
  destruct rl as [[]|e]; [destruct (state f =? "FAILED")|].
  - exists [], (Raise processing_failed).
    rewrite <- (app_nil_r polls) in H at 1.
    rewrite release_shape in H. injection H as <- <-. auto 10.
  - exists [generate_content transcribe_instruction f],
      (snd (extract w f (logged (logged s [upload_file path]) polls))).
    unfold extract at 1 in H. rewrite logged_logged in H.
    rewrite release_shape in H. injection H as <- <-.
    repeat split; auto.
  - exists [], (Raise e).
    rewrite <- (app_nil_r polls) in H at 1.
    rewrite release_shape in H. injection H as <- <-. auto 10.
Qed.

End Transcription.

(** C1: whenever the upload gave a handle and [transcribe_video_file]
    returns, by whatever exit (a transcript, the FAILED state, an
    exception while polling or extracting), the delete request for that
    handle is the last call of the run, and the only delete request in it.
    The service is taken to answer a poll with the handle it was asked
    about. *)
Theorem transcribe_deletes_handle
        (w : World) (fuel : nat) (path : string) (s s' : Machine)
        (r : result string) (f0 : File) :
  (forall tr h g, on_get_file w tr h = Ok g -> name g = h) ->
  on_upload_file w (trace s) path = Ok f0 ->
  transcribe_video_file w fuel path s = Some (s', r) ->
  exists evs,
    trace s' = trace s ++ upload_file path :: evs ++ [delete_file (name f0)]
    /\ existsb is_delete evs = false.
Proof.
  intros Hw Hup Hrun.
  destruct (transcribe_video_file_inv _ _ _ _ Hrun)
    as [[e [He _]] | [f0' [f [polls [body [r0 [Hf0 [Hp [Hn [Hb [-> _]]]]]]]]]]].
  - rewrite Hup in He. discriminate.
  - rewrite Hup in Hf0. injection Hf0 as <-.
    exists (polls ++ body). rewrite (Hn Hw). split.
    + simpl. now rewrite <- app_assoc.
    + rewrite existsb_app, (polls_no_delete _ Hp).
      destruct Hb as [-> | ->]; reflexivity.
Qed.

Lemma transcribe_deletes_handle_witness :
  exists evs,
    trace (logged Sample.fresh Sample.ready_trace)
    = trace Sample.fresh
      ++ upload_file "temp_a.webm" :: evs ++ [delete_file "files/clip"]
    /\ existsb is_delete evs = false.
Proof.
  apply (@transcribe_deletes_handle
           (Sample.world Sample.ready) 5 "temp_a.webm" Sample.fresh
           (logged Sample.fresh Sample.ready_trace)
           (Ok "I led the migration.") (Sample.uploaded "PROCESSING")).
  - intros tr h g H. simpl in H. injection H as <-. reflexivity.
  - reflexivity.
  - reflexivity.
Defined.

(** C2, as stated, fails: the extraction answered the transcript, the
    delete request was refused, and [transcribe_video_file] raises the
    error of the delete request instead of returning the transcript;
    nothing was printed. *)
Lemma transcribe_delete_failure_masks_transcript :
  on_generate_content (Sample.world Sample.undeletable)
                      [upload_file "temp_a.webm"] transcribe_instruction
                      (Sample.uploaded "ACTIVE")
  = Ok {| text := Ok "I led the migration." |}
  /\ transcribe_video_file (Sample.world Sample.undeletable) 5
                           "temp_a.webm" Sample.fresh
     = Some (logged Sample.fresh Sample.direct_trace,
             Raise (Exception "403 permission denied"))
  /\ existsb is_print Sample.direct_trace = false.
Proof. repeat split. Qed.

(** C2, amended: when the delete request that ends a run fails, its
    exception is what [transcribe_video_file] raises, in place of the
    transcript or of the earlier error; the function itself prints
    nothing. *)
Theorem transcribe_delete_failure_propagates
        (w : World) (fuel : nat) (path : string) (s s' : Machine)
        (r : result string) (tr0 : Trace) (h : string) (e : Exn) :
  transcribe_video_file w fuel path s = Some (s', r) ->
  trace s' = tr0 ++ [delete_file h] ->
  on_delete_file w tr0 h = Raise e ->
  r = Raise e
  /\ exists evs, trace s' = trace s ++ evs /\ existsb is_print evs = false.
Proof.
  intros Hrun Htr Hdel.
  destruct (transcribe_video_file_inv _ _ _ _ Hrun)
    as [[e' [_ [-> _]]]
       | [f0 [f [polls [body [r0 [_ [Hp [_ [Hb [-> ->]]]]]]]]]]].
  - simpl in Htr. apply app_inj_tail in Htr. destruct Htr as [_ Hev].
    discriminate Hev.
  - unfold logged in Htr. cbn [trace] in Htr. rewrite app_assoc in Htr.
    apply app_inj_tail in Htr. destruct Htr as [<- Hev].
    injection Hev as <-. rewrite Hdel. split; [reflexivity|].
    eexists. split; [reflexivity|].
    simpl. rewrite !existsb_app, (polls_no_print _ Hp).
    destruct Hb as [-> | ->]; reflexivity.
Qed.

Lemma transcribe_delete_failure_propagates_witness :
  @Raise string (Exception "403 permission denied")
  = Raise (Exception "403 permission denied")
  /\ exists evs,
      trace (logged Sample.fresh Sample.direct_trace)
      = trace Sample.fresh ++ evs
      /\ existsb is_print evs = false.
Proof.
  apply (@transcribe_delete_failure_propagates
           (Sample.world Sample.undeletable) 5 "temp_a.webm" Sample.fresh
           (logged Sample.fresh Sample.direct_trace)
           (Raise (Exception "403 permission denied"))
           [upload_file "temp_a.webm";
            generate_content transcribe_instruction
                             (Sample.uploaded "ACTIVE")]
           "files/clip" (Exception "403 permission denied")).
  - reflexivity.
  - reflexivity.
  - reflexivity.
Defined.

(** C5, as stated, fails: the pipeline is in a terminal state that is
    not FAILED right after the upload, the extraction answers the empty
    text, and [transcribe_video_file] returns the empty text. *)
Lemma transcribe_ready_returns_empty_text :
  polls_to (Sample.world Sample.mute)
           (Sample.uploaded "ACTIVE") [upload_file "temp_a.webm"]
           (Sample.uploaded "ACTIVE") [upload_file "temp_a.webm"]
  /\ transcribe_video_file (Sample.world Sample.mute) 5
                           "temp_a.webm" Sample.fresh
     = Some (logged Sample.fresh Sample.direct_trace, Ok EmptyString).
Proof. split; [apply polls_done|]; reflexivity. Qed.

(** C5, amended: when the upload gives a handle and the service walks
    from it to a terminal handle, [transcribe_video_file] returns with
    any fuel from some point on. If the terminal state is FAILED it
    raises, with no extraction request: the processing-failed error, or
    the error of a failed delete request. Otherwise it sends one
    extraction request on the terminal handle and its outcome is what
    reading the response text gives (a text, which may be empty, or the
    error of the request), unless the delete request fails. *)
Theorem transcribe_terminal_state
        (w : World) (path : string) (s : Machine) (f0 f1 : File)
        (tr1 : Trace) :
  on_upload_file w (trace s) path = Ok f0 ->
  polls_to w f0 (trace s ++ [upload_file path]) f1 tr1 ->
  exists fuel0, forall fuel, fuel0 <= fuel ->
    exists s' r,
      transcribe_video_file w fuel path s = Some (s', r)
      /\ interview_data s' = interview_data s
      /\ terminal_outcome w f1 tr1 s' r.
Proof.
  intros Hup Hpoll.
  destruct (polls_to_while Hpoll (interview_data s)) as [fuel0 Hfuel].
  exists fuel0. intros fuel Hle.
  rewrite transcribe_video_file_eq, Hup.
  unfold logged at 1. rewrite (Hfuel fuel Hle).
  unfold terminal_outcome. destruct (state f1 =? "FAILED").
  - eexists _, _. split; [reflexivity|]. split; [reflexivity|].
    split; reflexivity.
  - eexists _, _. split; [reflexivity|]. split; [reflexivity|].
    split; [|reflexivity].
    simpl. now rewrite <- app_assoc.
Qed.

Lemma transcribe_terminal_state_witness :
  exists fuel0, forall fuel, fuel0 <= fuel ->
    exists s' r,
      transcribe_video_file (Sample.world Sample.failed) fuel
                            "temp_a.webm" Sample.fresh = Some (s', r)
      /\ interview_data s' = interview_data Sample.fresh
      /\ terminal_outcome (Sample.world Sample.failed)
                          (Sample.uploaded "FAILED")
                          [upload_file "temp_a.webm"; sleep 2;
                           get_file "files/clip"] s' r.
Proof.
  apply (@transcribe_terminal_state
           (Sample.world Sample.failed) "temp_a.webm" Sample.fresh
           (Sample.uploaded "PROCESSING") (Sample.uploaded "FAILED")).
  - reflexivity.
  - eapply polls_next; [reflexivity | reflexivity |].
    apply polls_done. reflexivity.
Defined.

(* ================================================================== *)
(** * Content generation and the handlers *)

Section Handlers.
Variable w : World.

Lemma text_to_speech_eq (speech : string) (s : Machine) :
  text_to_speech w speech s =
  match tts_error w (trace s) speech with
  | Some e =>
      Some (logged s (tts_generate_content speech :: tts_warning e), Ok None)
  | None =>
      match on_tts w (trace s) speech with
      | Ok {| audio_content := Ok audio |} =>
          Some (logged s [tts_generate_content speech],
                Ok (Some (Base64.b64encode audio)))
      | _ => None
      end
  end.
Proof.
  unfold text_to_speech, tts_error, try_except, bind, call_tts, call_print,
    extern, attr, ret. simpl.
  destruct (on_tts w (trace s) speech) as [[[audio|e]]|e]; simpl;
    rewrite ?logged_logged; reflexivity.
Qed.

Lemma text_to_speech_total (speech : string) (s : Machine) :
  exists evs audio,
    text_to_speech w speech s = Some (logged s evs, Ok audio).
Proof.
  rewrite text_to_speech_eq. unfold tts_error.
  destruct (on_tts w (trace s) speech) as [[[audio|e]]|e]; simpl;
    eexists _, _; reflexivity.
Qed.

(** The two chain calls under [asyncio.gather]. *)
Lemma gather_chains_eq (p1 p2 : string) (s : Machine) :
  gather w (chain_ainvoke w p1) (chain_ainvoke w p2) s =
  Some (logged s [llm_invoke p1; llm_invoke p2],
        match on_llm w (trace s) p1,
              on_llm w (trace s ++ [llm_invoke p1]) p2 with
        | Ok a, Ok b => Ok (a, b)
        | Raise e, Ok _ => Raise e
        | Ok _, Raise e => Raise e
        | Raise e1, Raise e2 =>
            Raise (if first_failure w (trace s) then e1 else e2)
        end).
Proof.
  unfold gather, chain_ainvoke, extern. rewrite logged_logged. reflexivity.
Qed.

Lemma generate_interview_content_eq (title desc : string) (s : Machine) :
  generate_interview_content w title desc s =
  match gather w (chain_ainvoke w (intro_template title desc))
               (chain_ainvoke w (question_template desc)) s with
  | Some (s2, Ok (intro_text, questions_raw)) =>
      match text_to_speech w intro_text s2 with
      | Some (s3, Ok audio) =>
          Some (s3, Ok {| introduction := intro_text;
                          content_questions := questions_list questions_raw;
                          greetingAudio := audio |})
      | Some (s3, Raise e) => Some (s3, Raise e)
      | None => None
      end
  | Some (s2, Raise e) => Some (s2, Raise e)
  | None => None
  end.
Proof.
  unfold generate_interview_content. unfold bind at 1.
  destruct (gather w _ _ s) as [[s2 [[intro_text questions_raw]|e]]|];
    reflexivity.
Qed.

Lemma get_recruiter_report_eq (s : Machine) :
  get_recruiter_report w s =
  match evaluate_transcription
          w (dict_get (role_title (interview_data s)) "N/A")
          (join blank_line (dict_get (responses (interview_data s)) []))
          s
  with
  | Some (s1, Ok evaluation) =>
      Some (s1, Ok (recruiter_view
                      (dict_get (role_title (interview_data s)) "N/A")
                      evaluation))
  | Some (s1, Raise e) =>
      Some (logged s1 [print ("ERROR in /recruiter_report: " ++ message e)],
            Ok (recruiter_view
                  (dict_get (role_title (interview_data s)) "N/A")
                  error_message))
  | None => None
  end.
Proof.
  unfold get_recruiter_report, bind at 1, get_data. simpl.
  unfold try_except, bind at 1.
  destruct (evaluate_transcription w _ _ s) as [[s1 [evaluation|e]]|];
    reflexivity.
Qed.

End Handlers.

(** C3: when the introduction call or the question call fails,
    [generate_interview_content] raises and [start_interview] answers
    with the 500 error body; in both, [interview_data] (role title,
    questions, responses) is what it was before the request. *)
Theorem start_interview_generation_failure
        (w : World) (title desc : string) (s : Machine) :
  is_raise (on_llm w (trace s) (intro_template title desc)) = true
  \/ is_raise (on_llm w (trace s ++ [llm_invoke (intro_template title desc)])
                      (question_template desc)) = true ->
  exists e s1 s2,
    generate_interview_content w title desc s = Some (s1, Raise e)
    /\ interview_data s1 = interview_data s
    /\ start_interview w title desc s
       = Some (s2, Ok (JSONResponse 500 generation_error_body))
    /\ interview_data s2 = interview_data s.
Proof.
  intros Hfail.
  assert (Hgen : exists e,
             generate_interview_content w title desc s
             = Some (logged s [llm_invoke (intro_template title desc);
                               llm_invoke (question_template desc)],
                     Raise e)).
  { rewrite generate_interview_content_eq, gather_chains_eq.
    destruct (on_llm w (trace s) (intro_template title desc)) as [a|e1];
      destruct (on_llm w (trace s ++ [llm_invoke (intro_template title desc)])
                       (question_template desc)) as [b|e2];
      simpl in Hfail.
    - destruct Hfail; discriminate.
    - now exists e2.
    - now exists e1.
    - eexists. reflexivity. }
  destruct Hgen as [e Hgen]. exists e. eexists _, _.
  split; [exact Hgen|]. split; [reflexivity|].
  unfold start_interview, try_except, bind at 1. rewrite Hgen.
  unfold bind, call_print, extern, ret. split; reflexivity.
Qed.

Lemma start_interview_generation_failure_witness :
  exists e s1 s2,
    generate_interview_content (Sample.world Sample.no_questions)
                               "Backend Engineer" "Build APIs" Sample.fresh
    = Some (s1, Raise e)
    /\ interview_data s1 = interview_data Sample.fresh
    /\ start_interview (Sample.world Sample.no_questions)
                       "Backend Engineer" "Build APIs" Sample.fresh
       = Some (s2, Ok (JSONResponse 500 generation_error_body))
    /\ interview_data s2 = interview_data Sample.fresh.
Proof.
  apply (@start_interview_generation_failure
           (Sample.world Sample.no_questions)
           "Backend Engineer" "Build APIs" Sample.fresh).
  right. reflexivity.
Defined.

(** C4: when both chain calls succeed and the speech step fails (the
    model call raises, or its answer has no usable audio),
    [generate_interview_content] still returns: the introduction is the
    text of the first call, the questions are parsed from the text of the
    second, [greetingAudio] is [None]; the warning is printed and
    [interview_data] is untouched. *)
Theorem generate_survives_speech_failure
        (w : World) (title desc intro raw : string) (s : Machine) (e : Exn) :
  on_llm w (trace s) (intro_template title desc) = Ok intro ->
  on_llm w (trace s ++ [llm_invoke (intro_template title desc)])
         (question_template desc) = Ok raw ->
  tts_error w (trace s ++ [llm_invoke (intro_template title desc);
                           llm_invoke (question_template desc)]) intro
  = Some e ->
  generate_interview_content w title desc s
  = Some (logged s ([llm_invoke (intro_template title desc);
                     llm_invoke (question_template desc);
                     tts_generate_content intro] ++ tts_warning e),
          Ok {| introduction := intro;
                content_questions := questions_list raw;
                greetingAudio := None |}).
Proof.
  intros H1 H2 H3.
  rewrite generate_interview_content_eq, gather_chains_eq, H1, H2.
  rewrite text_to_speech_eq. simpl trace. rewrite H3.
  rewrite logged_logged. reflexivity.
Qed.

Lemma generate_survives_speech_failure_witness :
  generate_interview_content (Sample.world Sample.ready)
                             "Backend Engineer" "Build APIs" Sample.fresh
  = Some (logged Sample.fresh
                 ([llm_invoke Sample.intro_prompt;
                   llm_invoke Sample.question_prompt;
                   tts_generate_content "Welcome!"]
                  ++ tts_warning (Exception "quota")),
          Ok {| introduction := "Welcome!";
                content_questions :=
                  ["1. Why Rust?"; "2. Tell me about a failure."];
                greetingAudio := None |}).
Proof.
  apply (@generate_survives_speech_failure
           (Sample.world Sample.ready) "Backend Engineer" "Build APIs"
           "Welcome!" Sample.numbered Sample.fresh (Exception "quota")).
  - reflexivity.
  - reflexivity.
  - reflexivity.
Defined.

(** C8: [get_recruiter_report] never raises. The transcript it hands to
    the evaluation is the stored responses joined by a blank line, in
    their stored order (none when the key is absent). When that
    transcript is white space only, the report is the sentinel; otherwise
    one model call goes out on the evaluation prompt of the role title and
    that transcript, and the report is its text, or, when it raises, the
    fixed fallback message, the error being printed. *)
Theorem get_recruiter_report_cases (w : World) (s : Machine) :
  (forall a b l,
      join blank_line (a :: b :: l)
      = (a ++ blank_line ++ join blank_line (b :: l))%string)
  /\ (forall a, join blank_line [a] = a)
  /\ get_recruiter_report w s =
     let title := dict_get (role_title (interview_data s)) "N/A" in
     let t := join blank_line (dict_get (responses (interview_data s)) []) in
     if whitespace_only t
     then Some (s, Ok (recruiter_view title no_valid_responses))
     else
       match on_llm w (trace s) (evaluation_template title t) with
       | Ok evaluation =>
           Some (logged s [llm_invoke (evaluation_template title t)],
                 Ok (recruiter_view title evaluation))
       | Raise e =>
           Some (logged s [llm_invoke (evaluation_template title t);
                           print ("ERROR in /recruiter_report: "
                                    ++ message e)],
                 Ok (recruiter_view title error_message))
       end.
Proof.
  split; [reflexivity|]. split; [reflexivity|].
  rewrite get_recruiter_report_eq, evaluate_transcription_eq. simpl.
  destruct (whitespace_only _); [reflexivity|].
  destruct (on_llm w (trace s) _); [reflexivity|].
  rewrite logged_logged. reflexivity.
Qed.

(** C10: with [interview_data] still empty, [get_recruiter_report] does
    not fail: the role title is ["N/A"], the transcript is the empty
    text, the report is the no-responses sentinel, and the state (the
    trace with it) is unchanged, so no call went out. *)
Theorem get_recruiter_report_before_start (w : World) (tr : Trace) :
  dict_get (role_title interview_data_init) "N/A" = "N/A"
  /\ join blank_line (dict_get (responses interview_data_init) [])
     = EmptyString
  /\ get_recruiter_report
       w {| interview_data := interview_data_init; trace := tr |}
     = Some ({| interview_data := interview_data_init; trace := tr |},
             Ok (recruiter_view "N/A" no_valid_responses)).
Proof. repeat split. Qed.

(* ================================================================== *)
(** * What a request without a [responses] key leaves behind *)

Section Frame.
Variable w : World.

Lemma frames_ret {A} (a : A) : frames (ret a).
Proof. intros s s' r _ H. now injection H as <- _. Qed.

Lemma frames_attr {A} (x : result A) : frames (attr x).
Proof. intros s s' r _ H. now injection H as <- _. Qed.

Lemma frames_extern {A} ev (reply : Trace -> result A) :
  frames (extern ev reply).
Proof. intros s s' r _ H. now injection H as <- _. Qed.

Lemma frames_bind {A B} (m : M Machine A) (k : A -> M Machine B) :
  frames m -> (forall a, frames (k a)) -> frames (bind m k).
Proof.
  intros Hm Hk s s' r Hnone H. unfold bind in H.
  destruct (m s) as [[s1 [a|e]]|] eqn:E; [| |discriminate].
  - pose proof (Hm _ _ _ Hnone E) as H1.
    rewrite <- H1. apply (Hk a _ _ r); [now rewrite H1 | exact H].
  - injection H as <- _. exact (Hm _ _ _ Hnone E).
Qed.

Lemma frames_try_except {A} (m : M Machine A) (h : Exn -> M Machine A) :
  frames m -> (forall e, frames (h e)) -> frames (try_except m h).
Proof.
  intros Hm Hh s s' r Hnone H. unfold try_except in H.
  destruct (m s) as [[s1 [a|e]]|] eqn:E; [| |discriminate].
  - injection H as <- _. exact (Hm _ _ _ Hnone E).
  - pose proof (Hm _ _ _ Hnone E) as H1.
    rewrite <- H1. apply (Hh e _ _ r); [now rewrite H1 | exact H].
Qed.

Lemma frames_try_finally {A} (m : M Machine A) (final : M Machine unit) :
  frames m -> frames final -> frames (try_finally m final).
Proof.
  intros Hm Hf s s' r Hnone H. unfold try_finally in H.
  destruct (m s) as [[s1 r1]|] eqn:E; [|discriminate].
  pose proof (Hm _ _ _ Hnone E) as H1.
  destruct (final s1) as [[s2 [u|e]]|] eqn:E2; [| |discriminate];
    injection H as <- _; rewrite <- H1;
    apply (Hf _ _ _ ltac:(now rewrite H1) E2).
Qed.

Lemma transcribe_video_file_frame fuel path s s' r :
  transcribe_video_file w fuel path s = Some (s', r) ->
  interview_data s' = interview_data s.
Proof.
  intros H.
  destruct (transcribe_video_file_inv _ _ _ _ H)
    as [[e [_ [-> _]]] | [f0 [f [polls [body [r0 [_ [_ [_ [_ [-> _]]]]]]]]]]];
    reflexivity.
Qed.

Lemma frames_append_response (t : string) : frames (append_response t).
Proof.
  intros s s' r Hnone H.
  unfold append_response, bind, get_data in H. rewrite Hnone in H.
  now injection H as <- _.
Qed.

Lemma frames_submit_response fuel video :
  frames (submit_response w fuel video).
Proof.
  unfold submit_response.
  apply frames_try_finally.
  - apply frames_try_except.
    + apply frames_bind; [apply frames_extern|]. intros _.
      apply frames_bind; [apply frames_attr|]. intros data.
      apply frames_bind; [apply frames_extern|]. intros _.
      apply frames_bind.
      * intros s s' r _. apply transcribe_video_file_frame.
      * intros t. apply frames_bind; [apply frames_append_response|].
        intros _. apply frames_ret.
    + intros e. apply frames_bind; [apply frames_extern|].
      intros _. apply frames_ret.
  - apply frames_bind; [apply frames_extern|].
    intros [|]; [apply frames_extern | apply frames_ret].
Qed.

(** The run of [submit_response] whose local file calls and
    transcription succeed, on a state without a [responses] key. *)
Lemma submit_response_success fuel video data s s1 t :
  responses (interview_data s) = None ->
  on_fs_open w (trace s) (temp_path video) = Ok tt ->
  read video = Ok data ->
  on_fs_write w (trace s ++ [fs_open (temp_path video)])
              (temp_path video) data = Ok tt ->
  transcribe_video_file
    w fuel (temp_path video)
    (logged s [fs_open (temp_path video);
               fs_write (temp_path video) data]) = Some (s1, Ok t) ->
  exists s',
    submit_response w fuel video s
    = Some (s', match cleanup_error w (trace s1) (temp_path video) with
                | None => Ok (JSONResponse 200 (success_body t))
                | Some e => Raise e
                end).
Proof.
  intros Hnone Hopen Hread Hwrite Hrun.
  pose proof (transcribe_video_file_frame _ _ _ Hrun) as Hdata.
  simpl in Hdata.
  unfold submit_response, try_finally, try_except.
  fold (temp_path video).
  unfold bind at 1. unfold call_fs_open at 1, extern at 1. rewrite Hopen.
  unfold bind at 1. unfold attr at 1. rewrite Hread.
  unfold bind at 1. unfold call_fs_write at 1, extern at 1.
  simpl trace. rewrite Hwrite, logged_logged. simpl app.
  unfold bind at 1. rewrite Hrun.
  unfold bind at 1. unfold append_response, bind at 1, get_data.
  rewrite Hdata, Hnone. unfold ret at 1 2.
  unfold cleanup_error, bind, call_fs_exists, call_fs_remove, extern, ret.
  destruct (on_fs_exists w (trace s1) (temp_path video)).
  - simpl trace.
    destruct (on_fs_remove w _ (temp_path video)) as [[]|e];
      eexists; reflexivity.
  - eexists; reflexivity.
Qed.

End Frame.

(** C9: on a state without a [responses] key, [submit_response] leaves
    [interview_data] exactly as it was, whatever its outcome, and a
    report asked for right after is the no-responses sentinel; and when
    the local file calls and the transcription succeed with text [t], the
    answer is the success body with [t] (unless removing the temporary
    file raises). *)
Theorem submit_response_before_start
        (w : World) (fuel : nat) (video : UploadFile) (s : Machine) :
  responses (interview_data s) = None ->
  (forall s' r,
      submit_response w fuel video s = Some (s', r) ->
      interview_data s' = interview_data s
      /\ get_recruiter_report w s'
         = Some (s', Ok (recruiter_view
                           (dict_get (role_title (interview_data s)) "N/A")
                           no_valid_responses)))
  /\ (forall data s1 t,
         on_fs_open w (trace s) (temp_path video) = Ok tt ->
         read video = Ok data ->
         on_fs_write w (trace s ++ [fs_open (temp_path video)])
                     (temp_path video) data = Ok tt ->
         transcribe_video_file
           w fuel (temp_path video)
           (logged s [fs_open (temp_path video);
                      fs_write (temp_path video) data]) = Some (s1, Ok t) ->
         exists s',
           submit_response w fuel video s
           = Some (s', match cleanup_error w (trace s1) (temp_path video) with
                       | None => Ok (JSONResponse 200 (success_body t))
                       | Some e => Raise e
                       end)).
Proof.
  intros Hnone. split.
  - intros s' r Hrun.
    pose proof (@frames_submit_response w fuel video s s' r Hnone Hrun)
      as Hdata.
    split; [exact Hdata|].
    rewrite get_recruiter_report_eq, evaluate_transcription_eq.
    rewrite Hdata, Hnone. reflexivity.
  - intros data s1 t. now apply submit_response_success.
Qed.

Lemma submit_response_before_start_witness :
  exists s',
    submit_response (Sample.world Sample.ready) 5 Sample.clip Sample.fresh
    = Some (s', Ok (JSONResponse
                      200 (success_body "I led the migration.")))
    /\ interview_data s' = interview_data_init
    /\ get_recruiter_report (Sample.world Sample.ready) s'
       = Some (s', Ok (recruiter_view "N/A" no_valid_responses)).
Proof.
  destruct (@submit_response_before_start
              (Sample.world Sample.ready) 5 Sample.clip Sample.fresh
              eq_refl) as [Hframe Hok].
  destruct (Hok [x01; x02]%byte
                (logged Sample.fresh
                        ([fs_open "temp_a.webm";
                          fs_write "temp_a.webm" [x01; x02]%byte]
                           ++ Sample.ready_trace))
                "I led the migration."
                eq_refl eq_refl eq_refl eq_refl) as [s' Hs'].
  exists s'. split; [exact Hs'|]. exact (Hframe _ _ Hs').
Defined.

(* ================================================================== *)
(** * More on the text operations *)

Section MoreText.

Lemma all_chars_app p (a b : string) :
  all_chars p (a ++ b)%string = all_chars p a && all_chars p b.
Proof.
  induction a as [|c a IH]; [reflexivity|].
  simpl. now rewrite IH, andb_assoc.
Qed.

Lemma all_chars_get p (s : string) :
  all_chars p s = true ->
  forall k c, String.get k s = Some c -> p c = true.
Proof.
  induction s as [|a s IH]; intros H k c Hget; [discriminate|].
  simpl in H. apply andb_prop in H. destruct H as [Ha Hs].
  destruct k as [|k]; simpl in Hget.
  - now injection Hget as <-.
  - exact (IH Hs k c Hget).
Qed.

Lemma join_cons2 sep (a b : string) (l : list string) :
  join sep (a :: b :: l) = (a ++ sep ++ join sep (b :: l))%string.
Proof. reflexivity. Qed.

(** The pieces of a split hold no separator. *)
Lemma split_no_LF (s : string) : Forall (fun x => no_LF x = true) (split LF s).
Proof.
  induction s as [|c s IH]; simpl.
  - now constructor.
  - destruct (Ascii.eqb c LF) eqn:E; [now constructor|].
    destruct (split LF s) as [|piece rest].
    + constructor; [|constructor]. unfold no_LF. simpl. now rewrite E.
    + inversion IH as [|? ? Hp Hr]. constructor; [|exact Hr].
      unfold no_LF in *. simpl. now rewrite E, Hp.
Qed.

Lemma split_one (x : string) : no_LF x = true -> split LF x = [x].
Proof.
  unfold no_LF. induction x as [|c x IH]; [reflexivity|].
  simpl. intros H. apply andb_prop in H. destruct H as [Hc Hx].
  apply negb_true_iff in Hc. rewrite Hc, (IH Hx). reflexivity.
Qed.

Lemma split_app_nl (x rest : string) :
  no_LF x = true ->
  split LF (x ++ nl ++ rest)%string = x :: split LF rest.
Proof.
  unfold no_LF. induction x as [|c x IH]; [reflexivity|].
  simpl. intros H. apply andb_prop in H. destruct H as [Hc Hx].
  apply negb_true_iff in Hc. rewrite Hc.
  change (split LF (x ++ String LF rest)%string)
    with (split LF (x ++ nl ++ rest)%string).
  rewrite (IH Hx). reflexivity.
Qed.

(** Joining lines and splitting again gives the lines back. *)
Lemma split_join (l : list string) :
  l <> [] -> Forall (fun x => no_LF x = true) l ->
  split LF (join nl l) = l.
Proof.
  induction l as [|a l IH]; [congruence|].
  intros _ H. inversion H as [|? ? Ha Hl]. subst.
  destruct l as [|b l].
  - simpl. now apply split_one.
  - rewrite join_cons2, split_app_nl by exact Ha.
    f_equal. apply IH; [discriminate | exact Hl].
Qed.

Lemma questions_list_no_LF (raw : string) :
  Forall (fun q => no_LF q = true) (questions_list raw).
Proof.
  apply Forall_forall. intros q Hq. unfold questions_list in Hq.
  apply in_map_iff in Hq. destruct Hq as [x [<- Hx]].
  apply filter_In in Hx. destruct Hx as [Hx _].
  pose proof (split_no_LF raw) as H. rewrite Forall_forall in H.
  specialize (H _ Hx). unfold no_LF in *.
  now apply all_chars_rstrip, all_chars_lstrip.
Qed.

Lemma keep_question_entry (q : string) :
  q <> EmptyString /\ first_isdigit q = true /\ strip q = q ->
  keep_question q = true.
Proof.
  intros [Hne [Hd Hs]]. unfold keep_question. rewrite Hs, Hd.
  destruct q; [congruence | reflexivity].
Qed.

Lemma whitespace_only_join (l : list string) :
  whitespace_only (join blank_line l) = forallb whitespace_only l.
Proof.
  induction l as [|a l IH]; [reflexivity|].
  destruct l as [|b l].
  - simpl. now rewrite andb_true_r.
  - rewrite join_cons2. unfold whitespace_only in *.
    rewrite !all_chars_app, IH. simpl forallb.
    change (all_chars isspace blank_line) with true.
    reflexivity.
Qed.

(** Lists of bytes, three at a time. *)
Lemma by_threes (P : list byte -> Prop) :
  P [] -> (forall a, P [a]) -> (forall a b, P [a; b]) ->
  (forall a b c l, P l -> P (a :: b :: c :: l)) ->
  forall l, P l.
Proof.
  intros H0 H1 H2 H3.
  assert (H : forall l, P l /\ (forall a, P (a :: l))
                        /\ (forall a b, P (a :: b :: l))).
  { induction l as [|x l [IH0 [IH1 IH2]]].
    - auto.
    - split; [apply IH1|]. split; [intros a; apply IH2|].
      intros a b. now apply H3. }
  intros l. apply H.
Qed.

Lemma digit_is_base64 (n : N) : is_base64_char (Base64.digit n) = true.
Proof.
  unfold Base64.digit.
  destruct (String.get (N.to_nat n) Base64.alphabet) as [c|] eqn:E;
    [|reflexivity].
  revert E. apply all_chars_get. reflexivity.
Qed.

Lemma is_base64_ascii (c : ascii) :
  is_base64_char c = true -> Nat.ltb (code c) 128 = true.
Proof.
  unfold is_base64_char, between. intros H. apply Nat.ltb_lt.
  repeat (apply orb_prop in H; destruct H as [H|H]);
    repeat match goal with
           | H : (_ && _)%bool = true |- _ =>
               apply andb_prop in H; destruct H
           | H : Nat.leb _ _ = true |- _ => apply Nat.leb_le in H
           | H : Nat.eqb _ _ = true |- _ => apply Nat.eqb_eq in H
           end; lia.
Qed.

End MoreText.

(** X1: parsing is stable: writing the parsed questions one per line and
    parsing that text again gives the same list. *)
Theorem questions_list_reparse (raw : string) :
  questions_list (join nl (questions_list raw)) = questions_list raw.
Proof.
  pose proof (questions_list_entries raw) as He.
  pose proof (questions_list_no_LF raw) as Hn.
  destruct (questions_list raw) as [|q l] eqn:E; [reflexivity|].
  unfold questions_list. rewrite split_join; [|discriminate | exact Hn].
  assert (Hall : forall x, In x (q :: l) ->
                           keep_question x = true /\ strip x = x).
  { rewrite Forall_forall in He. intros x Hx. specialize (He x Hx).
    split; [now apply keep_question_entry | apply He]. }
  clear He Hn E. induction (q :: l) as [|x xs IH]; [reflexivity|].
  simpl. destruct (Hall x (or_introl eq_refl)) as [-> Hx].
  simpl. rewrite Hx. f_equal. apply IH. intros y Hy. apply Hall. now right.
Qed.

(** X2: every parsed question is a single line (it holds no line feed),
    and there are no more questions than lines in the raw text; text
    that is white space only gives no question at all. *)
Theorem questions_list_lines (raw : string) :
  Forall (fun q => no_LF q = true) (questions_list raw)
  /\ List.length (questions_list raw) <= List.length (split LF raw)
  /\ (whitespace_only raw = true -> questions_list raw = []).
Proof.
  split; [apply questions_list_no_LF|]. split.
  - unfold questions_list. rewrite length_map. apply filter_length_le.
  - intros Hw. unfold questions_list.
    assert (Hnone : forall x, In x (split LF raw) -> keep_question x = false).
    { intros x Hx. pose proof (all_chars_split isspace LF raw Hw) as H.
      rewrite Forall_forall in H. specialize (H x Hx).
      unfold keep_question. rewrite truthy_strip.
      unfold whitespace_only. now rewrite H. }
    induction (split LF raw) as [|x xs IH]; [reflexivity|].
    simpl. rewrite (Hnone x (or_introl eq_refl)).
    apply IH. intros y Hy. apply Hnone. now right.
Qed.

Lemma questions_list_lines_witness : questions_list "   " = [].
Proof.
  apply (proj2 (proj2 (questions_list_lines "   "))). reflexivity.
Defined.

(** X3: the Base64 text of [n] bytes has 4 * ceil(n / 3) characters, all
    of them from the Base64 alphabet or the padding, hence below U+0080:
    decoding it as UTF-8, as line 72 does, cannot fail. *)
Theorem b64encode_shape (bs : list byte) :
  String.length (Base64.b64encode bs) = 4 * ((List.length bs + 2) / 3)
  /\ all_chars is_base64_char (Base64.b64encode bs) = true
  /\ isascii (Base64.b64encode bs) = true.
Proof.
  assert (H : String.length (Base64.b64encode bs)
              = 4 * ((List.length bs + 2) / 3)
              /\ all_chars is_base64_char (Base64.b64encode bs) = true).
  { induction bs as [| a | a b | a b c l [IHl IHc]] using by_threes.
    - split; reflexivity.
    - split; [reflexivity|]. cbn [all_chars Base64.b64encode].
      now rewrite !digit_is_base64.
    - split; [reflexivity|]. cbn [all_chars Base64.b64encode].
      now rewrite !digit_is_base64.
    - split.
      + change (String.length (Base64.b64encode (a :: b :: c :: l)))
          with (4 + String.length (Base64.b64encode l)).
        rewrite IHl. simpl List.length.
        replace (S (S (S (List.length l))) + 2)
          with (1 * 3 + (List.length l + 2)) by lia.
        rewrite Nat.div_add_l by discriminate. lia.
      + change (Base64.b64encode (a :: b :: c :: l)) with
          (String (Base64.digit (N.shiftr (Byte.to_N a) 2))
             (String (Base64.digit
                        (N.lor (N.shiftl (N.land (Byte.to_N a) 3) 4)
                               (N.shiftr (Byte.to_N b) 4)))
                (String (Base64.digit
                           (N.lor (N.shiftl (N.land (Byte.to_N b) 15) 2)
                                  (N.shiftr (Byte.to_N c) 6)))
                   (String (Base64.digit (N.land (Byte.to_N c) 63))
                      (Base64.b64encode l))))).
        cbn [all_chars]. now rewrite !digit_is_base64, IHc. }
  destruct H as [Hlen Hchars]. split; [exact Hlen|]. split; [exact Hchars|].
  unfold isascii. clear Hlen.
  induction (Base64.b64encode bs) as [|c s IH]; [reflexivity|].
  simpl in *. apply andb_prop in Hchars. destruct Hchars as [Hc Hs].
  now rewrite (@is_base64_ascii c Hc), (IH Hs).
Qed.

(* ================================================================== *)
(** * The service layer, call by call *)

Section Keeps.
Variable R : InterviewData -> InterviewData -> Prop.
Hypothesis R_refl : forall d, R d d.

Lemma keeps_ret {A} (a : A) : keeps R (ret a).
Proof. intros s s' r H. injection H as <- _. apply R_refl. Qed.

Lemma keeps_attr {A} (x : result A) : keeps R (attr x).
Proof. intros s s' r H. injection H as <- _. apply R_refl. Qed.

Lemma keeps_extern {A} ev (reply : Trace -> result A) :
  keeps R (extern ev reply).
Proof. intros s s' r H. injection H as <- _. apply R_refl. Qed.

(** Only the continuation may move the dict. *)
Lemma keeps_bind_l {A B} (m : M Machine A) (k : A -> M Machine B) :
  keeps eq m -> (forall a, keeps R (k a)) -> keeps R (bind m k).
Proof.
  intros Hm Hk s s' r H. unfold bind in H.
  destruct (m s) as [[s1 [a|e]]|] eqn:E; [| |discriminate].
  - rewrite (Hm _ _ _ E). exact (Hk a _ _ _ H).
  - injection H as <- _. rewrite <- (Hm _ _ _ E). apply R_refl.
Qed.

(** Only the first computation may move the dict. *)
Lemma keeps_bind_r {A B} (m : M Machine A) (k : A -> M Machine B) :
  keeps R m -> (forall a, keeps eq (k a)) -> keeps R (bind m k).
Proof.
  intros Hm Hk s s' r H. unfold bind in H.
  destruct (m s) as [[s1 [a|e]]|] eqn:E; [| |discriminate].
  - rewrite <- (Hk a _ _ _ H). exact (Hm _ _ _ E).
  - injection H as <- _. exact (Hm _ _ _ E).
Qed.

Lemma keeps_try_except {A} (m : M Machine A) (h : Exn -> M Machine A) :
  keeps R m -> (forall e, keeps eq (h e)) -> keeps R (try_except m h).
Proof.
  intros Hm Hh s s' r H. unfold try_except in H.
  destruct (m s) as [[s1 [a|e]]|] eqn:E; [| |discriminate].
  - injection H as <- _. exact (Hm _ _ _ E).
  - rewrite <- (Hh e _ _ _ H). exact (Hm _ _ _ E).
Qed.

Lemma keeps_try_finally {A} (m : M Machine A) (final : M Machine unit) :
  keeps R m -> keeps eq final -> keeps R (try_finally m final).
Proof.
  intros Hm Hf s s' r H. unfold try_finally in H.
  destruct (m s) as [[s1 r1]|] eqn:E; [|discriminate].
  destruct (final s1) as [[s2 [u|e]]|] eqn:E2; [| |discriminate];
    injection H as <- _; rewrite <- (Hf _ _ _ E2); exact (Hm _ _ _ E).
Qed.

End Keeps.

Section ServiceFacts.
Variable w : World.

Lemma keeps_text_to_speech speech : keeps eq (text_to_speech w speech).
Proof.
  intros s s' r H.
  destruct (text_to_speech_total w speech s) as [evs [audio E]].
  rewrite E in H. now injection H as <- _.
Qed.

Lemma keeps_transcribe fuel path : keeps eq (transcribe_video_file w fuel path).
Proof.
  intros s s' r H. symmetry. eapply transcribe_video_file_frame. exact H.
Qed.

Lemma keeps_evaluate title t : keeps eq (evaluate_transcription w title t).
Proof.
  intros s s' r H. rewrite evaluate_transcription_eq in H.
  destruct (whitespace_only t); now injection H as <- _.
Qed.

(** What [generate_interview_content] comes to, by the answers of the
    two chain calls. *)
Lemma generate_interview_content_cases title desc s :
  let p1 := intro_template title desc in
  let p2 := question_template desc in
  let s2 := logged s [llm_invoke p1; llm_invoke p2] in
  generate_interview_content w title desc s =
  match on_llm w (trace s) p1, on_llm w (trace s ++ [llm_invoke p1]) p2 with
  | Ok intro, Ok raw =>
      match text_to_speech w intro s2 with
      | Some (s3, Ok audio) =>
          Some (s3, Ok {| introduction := intro;
                          content_questions := questions_list raw;
                          greetingAudio := audio |})
      | Some (s3, Raise e) => Some (s3, Raise e)
      | None => None
      end
  | Raise e, Ok _ => Some (s2, Raise e)
  | Ok _, Raise e => Some (s2, Raise e)
  | Raise e1, Raise e2 =>
      Some (s2, Raise (if first_failure w (trace s) then e1 else e2))
  end.
Proof.
  intros p1 p2 s2.
  rewrite generate_interview_content_eq, gather_chains_eq.
  fold p1 p2 s2.
  destruct (on_llm w (trace s) p1);
    destruct (on_llm w (trace s ++ [llm_invoke p1]) p2); reflexivity.
Qed.

Lemma keeps_generate title desc :
  keeps eq (generate_interview_content w title desc).
Proof.
  intros s s' r H. rewrite generate_interview_content_cases in H.
  cbv zeta in H.
  destruct (on_llm w (trace s) (intro_template title desc)) as [intro|e1];
    destruct (on_llm w _ (question_template desc)) as [raw|e2];
    try (now injection H as <- _).
  pose proof keeps_text_to_speech as K. unfold keeps in K.
  destruct (text_to_speech w intro _) as [[s3 [audio|e]]|] eqn:E;
    [| |discriminate];
    injection H as <- _; exact (K _ _ _ _ E).
Qed.

(** The polls of a finished loop, counted: at most [fuel] of them, each
    with its sleep, all on the name of the handle when the service
    answers with the name it was asked about. *)
Lemma while_processing_polls (fuel : nat) :
  (forall tr h g, on_get_file w tr h = Ok g -> name g = h) ->
  forall f s ls r,
    while_processing w fuel (Some f, s) = Some (ls, r) ->
    exists f' k,
      k <= fuel
      /\ ls = (Some f', logged s (poll_events (name f) k))
      /\ name f' = name f.
Proof.
  intros Hw. induction fuel as [|fuel' IH]; intros f s ls r H;
    rewrite while_processing_eq in H;
    destruct (state f =? "PROCESSING") eqn:Est.
  - discriminate.
  - injection H as <- <-. exists f, 0. rewrite logged_nil. auto.
  - destruct (on_get_file w (trace s ++ [sleep 2]) (name f)) as [f1|e] eqn:Eg.
    + apply IH in H. destruct H as [f' [k [Hk [-> Hn]]]].
      pose proof (Hw _ _ _ Eg) as Hf1.
      exists f', (S k). split; [lia|].
      rewrite logged_logged, Hf1 in *. split; [reflexivity | exact Hn].
    + injection H as <- <-. exists f, 1. split; [lia|]. split; reflexivity.
  - injection H as <- <-. exists f, 0. rewrite logged_nil.
    split; [lia|]. split; reflexivity.
Qed.


End ServiceFacts.


(** X5: when [generate_interview_content] raises, the exception is the
    one of a chain call that failed, and nothing but the two chain calls
    went out: the speech model is not called and nothing is printed. *)
Theorem generate_interview_content_failure
        (w : World) (title desc : string) (s s' : Machine) (e : Exn) :
  generate_interview_content w title desc s = Some (s', Raise e) ->
  s' = logged s [llm_invoke (intro_template title desc);
                 llm_invoke (question_template desc)]
  /\ (on_llm w (trace s) (intro_template title desc) = Raise e
      \/ on_llm w (trace s ++ [llm_invoke (intro_template title desc)])
                (question_template desc) = Raise e).
Proof.
  rewrite generate_interview_content_cases. cbv zeta.
  destruct (on_llm w (trace s) (intro_template title desc)) as [intro|e1];
    destruct (on_llm w _ (question_template desc)) as [raw|e2]; intros H.
  - destruct (text_to_speech_total w intro
                (logged s [llm_invoke (intro_template title desc);
                           llm_invoke (question_template desc)]))
      as [evs [audio E]].
    rewrite E in H. discriminate.
  - injection H as <- <-. auto.
  - injection H as <- <-. auto.
  - injection H as <- <-.
    destruct (first_failure w (trace s)); auto.
Qed.

Lemma generate_interview_content_failure_witness :
  logged Sample.fresh [llm_invoke Sample.intro_prompt;
                       llm_invoke Sample.question_prompt]
  = logged Sample.fresh [llm_invoke Sample.intro_prompt;
                         llm_invoke Sample.question_prompt]
  /\ (on_llm (Sample.world Sample.no_questions) (trace Sample.fresh)
             Sample.intro_prompt = Raise (Exception "429 quota")
      \/ on_llm (Sample.world Sample.no_questions)
                (trace Sample.fresh ++ [llm_invoke Sample.intro_prompt])
                Sample.question_prompt = Raise (Exception "429 quota")).
Proof.
  apply (@generate_interview_content_failure
           (Sample.world Sample.no_questions)
           "Backend Engineer" "Build APIs" Sample.fresh).
  reflexivity.
Defined.

(** X6: a content that [generate_interview_content] returns carries the
    introduction exactly as the first chain call answered it, and the
    questions parsed from the raw text the second chain call answered;
    its audio is absent exactly when the speech step failed. *)
Theorem generate_interview_content_success
        (w : World) (title desc : string) (s s' : Machine) (c : Content) :
  generate_interview_content w title desc s = Some (s', Ok c) ->
  exists raw,
    on_llm w (trace s) (intro_template title desc) = Ok (introduction c)
    /\ on_llm w (trace s ++ [llm_invoke (intro_template title desc)])
              (question_template desc) = Ok raw
    /\ content_questions c = questions_list raw
    /\ (greetingAudio c = None <->
        tts_error w (trace s ++ [llm_invoke (intro_template title desc);
                                 llm_invoke (question_template desc)])
                  (introduction c) <> None).
Proof.
  rewrite generate_interview_content_cases. cbv zeta.
  destruct (on_llm w (trace s) (intro_template title desc)) as [intro|e1];
    destruct (on_llm w _ (question_template desc)) as [raw|e2];
    try discriminate.
  rewrite text_to_speech_eq. simpl trace. unfold tts_error.
  destruct (on_tts w _ intro) as [[[bytes|e]]|e] eqn:Et; intros H;
    injection H as <- <-; exists raw; simpl; rewrite Et; simpl;
    (split; [reflexivity|]); (split; [reflexivity|]);
    (split; [reflexivity|]);
    (split;
     [ intros Hx; first [discriminate Hx | intros Hy; discriminate Hy]
     | intros Hx; first [reflexivity | exfalso; now apply Hx] ]).
Qed.

Lemma generate_interview_content_success_witness :
  exists raw,
    on_llm (Sample.world Sample.spoken) (trace Sample.fresh)
           Sample.intro_prompt = Ok "Welcome!"
    /\ on_llm (Sample.world Sample.spoken)
              (trace Sample.fresh ++ [llm_invoke Sample.intro_prompt])
              Sample.question_prompt = Ok raw
    /\ ["1. Why Rust?"; "2. Tell me about a failure."] = questions_list raw
    /\ (Some "TWFu" = None <->
        tts_error (Sample.world Sample.spoken)
                  (trace Sample.fresh ++ [llm_invoke Sample.intro_prompt;
                                          llm_invoke Sample.question_prompt])
                  "Welcome!" <> None).
Proof.
  apply (@generate_interview_content_success
           (Sample.world Sample.spoken) "Backend Engineer" "Build APIs"
           Sample.fresh
           (logged Sample.fresh [llm_invoke Sample.intro_prompt;
                                 llm_invoke Sample.question_prompt;
                                 tts_generate_content "Welcome!"])
           {| introduction := "Welcome!";
              content_questions :=
                ["1. Why Rust?"; "2. Tell me about a failure."];
              greetingAudio := Some "TWFu" |}).
  reflexivity.
Defined.

(** X7: when the upload itself raises, [transcribe_video_file] raises
    that exception at once, for any fuel: no poll, no extraction request
    and no delete request is sent. *)
Theorem transcribe_upload_failure
        (w : World) (fuel : nat) (path : string) (s : Machine) (e : Exn) :
  on_upload_file w (trace s) path = Raise e ->
  transcribe_video_file w fuel path s
  = Some (logged s [upload_file path], Raise e).
Proof. intros H. now rewrite transcribe_video_file_eq, H. Qed.

Lemma transcribe_upload_failure_witness :
  transcribe_video_file Sample.no_upload 5 "temp_a.webm" Sample.fresh
  = Some (logged Sample.fresh [upload_file "temp_a.webm"],
          Raise (Exception "413 too large")).
Proof.
  apply (@transcribe_upload_failure
           Sample.no_upload 5 "temp_a.webm" Sample.fresh
           (Exception "413 too large")).
  reflexivity.
Defined.

(** X8: a transcript that [transcribe_video_file] returns is the text
    the model answered to the one extraction request of the run, made on
    a handle whose state is neither PROCESSING nor FAILED; the run ends
    with that request and a delete request on the same handle, which
    succeeded. *)
Theorem transcribe_returns_model_text
        (w : World) (fuel : nat) (path : string) (s s' : Machine)
        (t : string) :
  transcribe_video_file w fuel path s = Some (s', Ok t) ->
  exists tr1 f response,
    trace s' = tr1 ++ [generate_content transcribe_instruction f;
                       delete_file (name f)]
    /\ (state f =? "PROCESSING") = false
    /\ (state f =? "FAILED") = false
    /\ on_generate_content w tr1 transcribe_instruction f = Ok response
    /\ text response = Ok t
    /\ on_delete_file w (tr1 ++ [generate_content transcribe_instruction f])
                      (name f) = Ok tt.
Proof.
  rewrite transcribe_video_file_eq.
  destruct (on_upload_file w (trace s) path) as [f0|e]; [|discriminate].
  destruct (while_processing w fuel (Some f0, logged s [upload_file path]))
    as [[ls rl]|] eqn:Ew; [|discriminate].
  destruct (@while_processing_inv w fuel _ _ _ _ Ew)
    as [f [polls [-> [_ [Hst _]]]]].
  destruct rl as [[]|e].
  2:{ unfold release. simpl.
      destruct (on_delete_file w _ (name f)); discriminate. }
  specialize (Hst eq_refl).
  destruct (state f =? "FAILED") eqn:Ef.
  { unfold release. simpl.
    destruct (on_delete_file w _ (name f)); discriminate. }
  unfold release, extract. simpl. intros H.
  exists (trace s ++ [upload_file path] ++ polls), f.
  rewrite <- !app_assoc in H. simpl in H.
  replace ((trace s ++ upload_file path :: polls)
             ++ [generate_content transcribe_instruction f])
    with (trace s ++ upload_file path
                :: polls ++ [generate_content transcribe_instruction f])
    by (now rewrite <- app_assoc).
  destruct (on_delete_file w _ (name f)) as [[]|e] eqn:Ed; [|discriminate].
  destruct (on_generate_content w _ transcribe_instruction f)
    as [response|e] eqn:Eg; [|discriminate].
  injection H as <- Ht. exists response. simpl.
  repeat split; auto; rewrite <- ?app_assoc; simpl; auto.
Qed.

Lemma transcribe_returns_model_text_witness :
  exists tr1 f response,
    trace (logged Sample.fresh Sample.ready_trace)
    = tr1 ++ [generate_content transcribe_instruction f;
              delete_file (name f)]
    /\ (state f =? "PROCESSING") = false
    /\ (state f =? "FAILED") = false
    /\ on_generate_content (Sample.world Sample.ready) tr1
                           transcribe_instruction f = Ok response
    /\ text response = Ok "I led the migration."
    /\ on_delete_file (Sample.world Sample.ready)
                      (tr1 ++ [generate_content transcribe_instruction f])
                      (name f) = Ok tt.
Proof.
  apply (@transcribe_returns_model_text
           (Sample.world Sample.ready) 5 "temp_a.webm" Sample.fresh
           (logged Sample.fresh Sample.ready_trace) "I led the migration.").
  reflexivity.
Defined.



(** X10: the calls of a finished run whose upload gave a handle are, in
    order: the upload, [k] polls of that handle for some [k] up to the
    fuel, each after a two-second sleep, at most one extraction request,
    and the delete request. The service is taken to answer a poll with
    the handle it was asked about. *)
Theorem transcribe_call_sequence
        (w : World) (fuel : nat) (path : string) (s s' : Machine)
        (r : result string) (f0 : File) :
  (forall tr h g, on_get_file w tr h = Ok g -> name g = h) ->
  on_upload_file w (trace s) path = Ok f0 ->
  transcribe_video_file w fuel path s = Some (s', r) ->
  exists k body,
    k <= fuel
    /\ trace s' = trace s ++ upload_file path
                        :: poll_events (name f0) k
                        ++ body ++ [delete_file (name f0)]
    /\ (body = []
        \/ exists f, name f = name f0
                     /\ body = [generate_content transcribe_instruction f]).
Proof.
  intros Hw Hup. rewrite transcribe_video_file_eq, Hup.
  destruct (while_processing w fuel (Some f0, logged s [upload_file path]))
    as [[ls rl]|] eqn:Ew; [|discriminate].
  destruct (@while_processing_polls w fuel Hw _ _ _ _ Ew)
    as [f [k [Hk [-> Hn]]]].
  intros H. exists k.
  destruct rl as [[]|e]; [destruct (state f =? "FAILED")|].
  - exists []. split; [exact Hk|]. injection H as <- _.
    split; [|now left].
    simpl. rewrite Hn, <- !app_assoc. reflexivity.
  - exists [generate_content transcribe_instruction f].
    split; [exact Hk|]. injection H as <- _.
    split; [|right; now exists f].
    simpl. rewrite Hn, <- !app_assoc. reflexivity.
  - exists []. split; [exact Hk|]. injection H as <- _.
    split; [|now left].
    simpl. rewrite Hn, <- !app_assoc. reflexivity.
Qed.

Lemma transcribe_call_sequence_witness :
  exists k body,
    k <= 5
    /\ trace (logged Sample.fresh Sample.ready_trace)
       = trace Sample.fresh
         ++ upload_file "temp_a.webm"
         :: poll_events "files/clip" k ++ body ++ [delete_file "files/clip"]
    /\ (body = []
        \/ exists f, name f = "files/clip"
                     /\ body = [generate_content transcribe_instruction f]).
Proof.
  apply (@transcribe_call_sequence
           (Sample.world Sample.ready) 5 "temp_a.webm" Sample.fresh
           (logged Sample.fresh Sample.ready_trace)
           (Ok "I led the migration.") (Sample.uploaded "PROCESSING")).
  - intros tr h g H. simpl in H. injection H as <-. reflexivity.
  - reflexivity.
  - reflexivity.
Defined.

(* ================================================================== *)
(** * The handlers, request by request *)

Section HandlerFacts.
Variable w : World.


(** [start_interview], by the outcome of the generation. *)
Lemma start_interview_eq title desc s :
  start_interview w title desc s =
  match generate_interview_content w title desc s with
  | Some (s1, Ok c) =>
      Some ({| interview_data := started title (content_questions c);
               trace := trace s1 |},
            Ok (JSONResponse 200 (content_json c)))
  | Some (s1, Raise e) =>
      Some (logged s1 [print ("ERROR in /start_interview: " ++ message e)],
            Ok (JSONResponse 500 generation_error_body))
  | None => None
  end.
Proof.
  unfold start_interview, try_except, bind at 1.
  destruct (generate_interview_content w title desc s) as [[s1 [c|e]]|];
    reflexivity.
Qed.

Lemma submit_response_blocks fuel video :
  submit_response w fuel video
  = try_finally (submit_try w fuel video) (submit_finally w video).
Proof. reflexivity. Qed.

Lemma submit_finally_eq video s :
  submit_finally w video s =
  Some (logged s (cleanup_events w (trace s) (temp_path video)),
        match cleanup_error w (trace s) (temp_path video) with
        | Some e => Raise e
        | None => Ok tt
        end).
Proof.
  unfold submit_finally, cleanup_events, cleanup_error, bind,
    call_fs_exists, call_fs_remove, extern, ret.
  destruct (on_fs_exists w (trace s) (temp_path video)); [|reflexivity].
  simpl trace. rewrite logged_logged.
  destruct (on_fs_remove w _ (temp_path video)) as [[]|e]; reflexivity.
Qed.

(** The [try] block of [submit_response], flattened. *)
Lemma submit_try_eq fuel video s :
  submit_try w fuel video s =
  match on_fs_open w (trace s) (temp_path video) with
  | Raise e => submit_failed (logged s [fs_open (temp_path video)]) e
  | Ok _ =>
      match read video with
      | Raise e => submit_failed (logged s [fs_open (temp_path video)]) e
      | Ok data =>
          let saved := logged s [fs_open (temp_path video);
                                 fs_write (temp_path video) data] in
          match on_fs_write w (trace s ++ [fs_open (temp_path video)])
                            (temp_path video) data with
          | Raise e => submit_failed saved e
          | Ok _ =>
              match transcribe_video_file w fuel (temp_path video) saved with
              | None => None
              | Some (s1, Raise e) => submit_failed s1 e
              | Some (s1, Ok t) =>
                  Some ({| interview_data :=
                             with_response (interview_data s1) t;
                           trace := trace s1 |},
                        Ok (JSONResponse 200 (success_body t)))
              end
          end
      end
  end.
Proof.
  unfold submit_try, try_except, submit_failed.
  unfold bind at 1. unfold call_fs_open at 1, extern at 1.
  destruct (on_fs_open w (trace s) (temp_path video)) as [[]|e];
    [|reflexivity].
  unfold bind at 1. unfold attr at 1.
  destruct (read video) as [data|e]; [|reflexivity].
  unfold bind at 1. unfold call_fs_write at 1, extern at 1.
  simpl trace. rewrite logged_logged. simpl app. cbv zeta.
  destruct (on_fs_write w _ (temp_path video) data) as [[]|e];
    [|reflexivity].
  unfold bind at 1.
  destruct (transcribe_video_file w fuel (temp_path video) _)
    as [[s1 [t|e]]|]; try reflexivity.
  unfold append_response, set_responses, get_data, set_data, ret,
    with_response, answered, bind.
  destruct s1 as [d tr]. simpl.
  destruct (responses d); reflexivity.
Qed.

(** The [try] block never raises: the [except] clause takes every
    exception. *)
Lemma submit_try_never_raises fuel video s s1 r :
  submit_try w fuel video s = Some (s1, r) -> exists resp, r = Ok resp.
Proof.
  rewrite submit_try_eq. unfold submit_failed. cbv zeta.
  destruct (on_fs_open w _ _) as [[]|e];
    [|intros H; injection H as _ <-; eexists; reflexivity].
  destruct (read video) as [data|e];
    [|intros H; injection H as _ <-; eexists; reflexivity].
  destruct (on_fs_write w _ _ data) as [[]|e];
    [|intros H; injection H as _ <-; eexists; reflexivity].
  destruct (transcribe_video_file w fuel _ _) as [[s2 [t|e]]|];
    [| |discriminate]; intros H; injection H as _ <-; eexists; reflexivity.
Qed.

Lemma submit_response_eq fuel video s :
  submit_response w fuel video s =
  match submit_try w fuel video s with
  | None => None
  | Some (s1, r1) =>
      Some (logged s1 (cleanup_events w (trace s1) (temp_path video)),
            match cleanup_error w (trace s1) (temp_path video) with
            | Some e => Raise e
            | None => r1
            end)
  end.
Proof.
  rewrite submit_response_blocks. unfold try_finally.
  destruct (submit_try w fuel video s) as [[s1 r1]|]; [|reflexivity].
  rewrite submit_finally_eq.
  destruct (cleanup_error w (trace s1) (temp_path video)); reflexivity.
Qed.

Lemma keeps_append_response t : keeps one_more (append_response t).
Proof.
  intros s s' r H.
  unfold append_response, set_responses, get_data, set_data, bind in H.
  destruct (responses (interview_data s)) as [l|] eqn:E.
  - injection H as <- _. right. exists l, t. split; [exact E | reflexivity].
  - injection H as <- _. now left.
Qed.

Lemma one_more_refl d : one_more d d.
Proof. now left. Qed.

(** Whatever its outcome, [submit_response] leaves the dict as it was or
    with one more response at the end. *)
Lemma keeps_submit_response fuel video :
  keeps one_more (submit_response w fuel video).
Proof.
  unfold submit_response.
  apply keeps_try_finally.
  - apply keeps_try_except.
    + apply keeps_bind_l; [exact one_more_refl | apply keeps_extern; auto |].
      intros _.
      apply keeps_bind_l; [exact one_more_refl | apply keeps_attr; auto |].
      intros data.
      apply keeps_bind_l; [exact one_more_refl | apply keeps_extern; auto |].
      intros _.
      apply keeps_bind_l; [exact one_more_refl | apply keeps_transcribe |].
      intros t.
      apply keeps_bind_r; [apply keeps_append_response|].
      intros _. apply keeps_ret. auto.
    + intros e.
      apply keeps_bind_l; [auto | apply keeps_extern; auto |].
      intros _. apply keeps_ret. auto.
  - apply keeps_bind_l; [auto | apply keeps_extern; auto |].
    intros [|]; [apply keeps_extern | apply keeps_ret]; auto.
Qed.

Lemma keeps_get_recruiter_report : keeps eq (get_recruiter_report w).
Proof.
  intros s s' r H. rewrite get_recruiter_report_eq in H.
  pose proof keeps_evaluate as K. unfold keeps in K.
  destruct (evaluate_transcription w _ _ s) as [[s1 [ev|e]]|] eqn:E;
    [| |discriminate]; injection H as <- _; exact (K _ _ _ _ _ _ E).
Qed.

(** [start_interview] leaves the dict as it was, or replaces it by a
    fresh session whose questions are a parsed list. *)
Lemma start_interview_data title desc s s' r :
  start_interview w title desc s = Some (s', r) ->
  interview_data s' = interview_data s
  \/ exists raw, interview_data s' = started title (questions_list raw).
Proof.
  rewrite start_interview_eq.
  destruct (generate_interview_content w title desc s) as [[s1 [c|e]]|] eqn:E;
    [| |discriminate]; intros H; injection H as <- _.
  - right. rewrite generate_interview_content_cases in E. cbv zeta in E.
    destruct (on_llm w (trace s) (intro_template title desc)) as [intro|e1];
      destruct (on_llm w _ (question_template desc)) as [raw|e2];
      try discriminate.
    destruct (text_to_speech w intro _) as [[s3 [audio|e]]|];
      try discriminate.
    injection E as _ <-. now exists raw.
  - left. pose proof keeps_generate as K. unfold keeps in K.
    symmetry. exact (K _ _ _ _ _ _ E).
Qed.

End HandlerFacts.

Section RouteFacts.
Variable w : World.

(** What one request can do to the dict. *)
Lemma route_data fuel req s s1 r :
  route w fuel req s = Some (s1, r) ->
  interview_data s1 = interview_data s
  \/ (exists title raw, interview_data s1 = started title (questions_list raw))
  \/ (is_submit req = true
      /\ exists l t, responses (interview_data s) = Some l
                     /\ interview_data s1 = answered (interview_data s) l t).
Proof.
  destruct req as [|title desc|video|]; simpl; intros H.
  - injection H as <- _. now left.
  - destruct (start_interview_data _ _ _ _ H) as [He | [raw Hs]].
    + now left.
    + right. left. now exists title, raw.
  - pose proof (@keeps_submit_response w fuel video) as K. unfold keeps in K.
    destruct (K _ _ _ H) as [He | [l [t [Hl Ha]]]].
    + now left.
    + right. right. split; [reflexivity|]. now exists l, t.
  - left. pose proof (@keeps_get_recruiter_report w) as K. unfold keeps in K.
    symmetry. exact (K _ _ _ H).
Qed.

Lemma questions_parsed_started title raw :
  keys_together (started title (questions_list raw)) = true
  /\ questions_parsed (started title (questions_list raw)).
Proof.
  split; [reflexivity|]. unfold questions_parsed. simpl.
  pose proof (questions_list_entries raw) as H.
  rewrite Forall_forall in *. intros q Hq. specialize (H q Hq). tauto.
Qed.

End RouteFacts.


(** X12: a successful [start_interview] clears the responses of any
    earlier session: a report asked for right after it is the
    no-responses sentinel for the new title, and no evaluation call goes
    out. *)
Theorem report_after_start
        (w : World) (title desc : string) (s s' : Machine) (body : Json) :
  start_interview w title desc s = Some (s', Ok (JSONResponse 200 body)) ->
  responses (interview_data s') = Some []
  /\ get_recruiter_report w s'
     = Some (s', Ok (recruiter_view title no_valid_responses)).
Proof.
  rewrite start_interview_eq.
  destruct (generate_interview_content w title desc s) as [[s1 [c|e]]|];
    [| |discriminate]; intros H; [|discriminate].
  injection H as <- _. split; [reflexivity|].
  rewrite get_recruiter_report_eq, evaluate_transcription_eq. reflexivity.
Qed.

Lemma report_after_start_witness :
  responses (interview_data Sample.restarted) = Some []
  /\ get_recruiter_report (Sample.world Sample.ready) Sample.restarted
     = Some (Sample.restarted,
             Ok (recruiter_view "Data Engineer" no_valid_responses)).
Proof.
  apply (@report_after_start
           (Sample.world Sample.ready) "Data Engineer" "Build pipelines"
           Sample.under_way Sample.restarted
           [("introduction", JStr "Welcome!");
            ("questions",
             JList ["1. Why Rust?"; "2. Tell me about a failure."]);
            ("greetingAudio", JNull)]).
  vm_compute. reflexivity.
Defined.

(** X13: with a [responses] list [l] stored, a clip that is saved and
    transcribed to [t] leaves the list [l ++ [t]], the role title and the
    questions as they were; the answer is the success body with [t],
    unless removing the temporary file raises, in which case that
    exception leaves the handler although [t] is stored. *)
Theorem submit_response_appends
        (w : World) (fuel : nat) (video : UploadFile) (s s1 : Machine)
        (data : list byte) (t : string) (l : list string) :
  responses (interview_data s) = Some l ->
  save_error w (trace s) video = None ->
  read video = Ok data ->
  transcribe_video_file
    w fuel (temp_path video)
    (logged s [fs_open (temp_path video); fs_write (temp_path video) data])
  = Some (s1, Ok t) ->
  submit_response w fuel video s
  = Some ({| interview_data := answered (interview_data s) l t;
             trace := trace s1
                      ++ cleanup_events w (trace s1) (temp_path video) |},
          match cleanup_error w (trace s1) (temp_path video) with
          | Some e => Raise e
          | None => Ok (JSONResponse 200 (success_body t))
          end).
Proof.
  intros Hl Hsave Hread Hrun.
  pose proof (@transcribe_video_file_frame w fuel _ _ _ _ Hrun) as Hd.
  simpl in Hd.
  rewrite submit_response_eq, submit_try_eq. unfold save_error in Hsave.
  destruct (on_fs_open w (trace s) (temp_path video)) as [[]|e];
    [|discriminate].
  rewrite Hread in *. cbv zeta.
  destruct (on_fs_write w _ (temp_path video) data) as [[]|e];
    [|discriminate].
  rewrite Hrun. unfold with_response. rewrite Hd, Hl. reflexivity.
Qed.

Lemma submit_response_appends_witness :
  submit_response (Sample.world Sample.ready) 5 Sample.clip Sample.under_way
  = Some ({| interview_data :=
               answered (interview_data Sample.under_way)
                        ["First answer."] "I led the migration.";
             trace :=
               ([fs_open "temp_a.webm";
                 fs_write "temp_a.webm" [x01; x02]%byte]
                  ++ Sample.ready_trace)
                 ++ [fs_exists "temp_a.webm"; fs_remove "temp_a.webm"] |},
          Ok (JSONResponse 200 (success_body "I led the migration."))).
Proof.
  apply (@submit_response_appends
           (Sample.world Sample.ready) 5 Sample.clip Sample.under_way
           (logged Sample.under_way
                   ([fs_open "temp_a.webm";
                     fs_write "temp_a.webm" [x01; x02]%byte]
                      ++ Sample.ready_trace))
           [x01; x02]%byte "I led the migration." ["First answer."]).
  - reflexivity.
  - reflexivity.
  - reflexivity.
  - reflexivity.
Defined.

(** X14: when the clip is saved and the transcription raises (the
    upload, a poll, the FAILED state, the extraction or the delete
    request), [submit_response] prints the error with its message,
    leaves the session dict untouched and answers the 500 body, after
    the file cleanup. *)
Theorem submit_response_transcription_failure
        (w : World) (fuel : nat) (video : UploadFile) (s s1 : Machine)
        (data : list byte) (e : Exn) :
  save_error w (trace s) video = None ->
  read video = Ok data ->
  transcribe_video_file
    w fuel (temp_path video)
    (logged s [fs_open (temp_path video); fs_write (temp_path video) data])
  = Some (s1, Raise e) ->
  let printed :=
    trace s1 ++ [print ("ERROR in /submit_response: " ++ message e)] in
  submit_response w fuel video s
  = Some ({| interview_data := interview_data s;
             trace := printed
                      ++ cleanup_events w printed (temp_path video) |},
          match cleanup_error w printed (temp_path video) with
          | Some e' => Raise e'
          | None => Ok (JSONResponse 500 video_error_body)
          end).
Proof.
  intros Hsave Hread Hrun printed.
  pose proof (@transcribe_video_file_frame w fuel _ _ _ _ Hrun) as Hd.
  simpl in Hd.
  rewrite submit_response_eq, submit_try_eq. unfold save_error in Hsave.
  destruct (on_fs_open w (trace s) (temp_path video)) as [[]|e0];
    [|discriminate].
  rewrite Hread in *. cbv zeta.
  destruct (on_fs_write w _ (temp_path video) data) as [[]|e0];
    [|discriminate].
  rewrite Hrun. unfold submit_failed, logged. simpl. rewrite Hd.
  reflexivity.
Qed.

Lemma submit_response_transcription_failure_witness :
  submit_response (Sample.world Sample.undeletable) 5 Sample.clip
                  Sample.under_way
  = Some ({| interview_data := interview_data Sample.under_way;
             trace :=
               (([fs_open "temp_a.webm";
                  fs_write "temp_a.webm" [x01; x02]%byte]
                   ++ Sample.direct_trace)
                  ++ [print "ERROR in /submit_response: 403 permission denied"])
                 ++ [fs_exists "temp_a.webm"; fs_remove "temp_a.webm"] |},
          Ok (JSONResponse 500 video_error_body)).
Proof.
  apply (@submit_response_transcription_failure
           (Sample.world Sample.undeletable) 5 Sample.clip Sample.under_way
           (logged Sample.under_way
                   ([fs_open "temp_a.webm";
                     fs_write "temp_a.webm" [x01; x02]%byte]
                      ++ Sample.direct_trace))
           [x01; x02]%byte (Exception "403 permission denied")).
  - reflexivity.
  - reflexivity.
  - reflexivity.
Defined.



(** X16: every finished run of [submit_response] ends with the cleanup
    of the temporary file: the existence test, and the removal when the
    file is there. The handler raises only when that removal raises;
    otherwise it answers a response, every other exception having been
    caught. *)
Theorem submit_response_cleanup
        (w : World) (fuel : nat) (video : UploadFile) (s s' : Machine)
        (r : result Response) :
  submit_response w fuel video s = Some (s', r) ->
  exists tr1,
    trace s' = tr1 ++ cleanup_events w tr1 (temp_path video)
    /\ match cleanup_error w tr1 (temp_path video) with
       | Some e => r = Raise e
       | None => exists resp, r = Ok resp
       end.
Proof.
  rewrite submit_response_eq.
  destruct (submit_try w fuel video s) as [[s1 r1]|] eqn:E; [|discriminate].
  intros H. injection H as <- <-. exists (trace s1).
  split; [reflexivity|].
  destruct (cleanup_error w (trace s1) (temp_path video)); [reflexivity|].
  eapply submit_try_never_raises. exact E.
Qed.

Lemma submit_response_cleanup_witness :
  exists tr1,
    ([fs_open "temp_a.webm"; fs_write "temp_a.webm" [x01; x02]%byte]
       ++ Sample.ready_trace)
      ++ [fs_exists "temp_a.webm"; fs_remove "temp_a.webm"]
    = tr1 ++ cleanup_events (Sample.world Sample.ready) tr1 "temp_a.webm"
    /\ match cleanup_error (Sample.world Sample.ready) tr1 "temp_a.webm" with
       | Some e =>
           Ok (JSONResponse 200 (success_body "I led the migration."))
           = Raise e
       | None =>
           exists resp,
             Ok (JSONResponse 200 (success_body "I led the migration."))
             = Ok resp
       end.
Proof.
  apply (@submit_response_cleanup
           (Sample.world Sample.ready) 5 Sample.clip Sample.under_way
           {| interview_data :=
                answered (interview_data Sample.under_way)
                         ["First answer."] "I led the migration.";
              trace :=
                ([fs_open "temp_a.webm";
                  fs_write "temp_a.webm" [x01; x02]%byte]
                   ++ Sample.ready_trace)
                  ++ [fs_exists "temp_a.webm"; fs_remove "temp_a.webm"] |}
           (Ok (JSONResponse 200 (success_body "I led the migration.")))).
  reflexivity.
Defined.

(** X17: whatever its outcome, [submit_response] leaves the session dict
    as it was or with exactly one more response at the end of the stored
    list: it never removes or rewrites a stored response, never touches
    the role title or the questions, and never creates the [responses]
    key. *)
Theorem submit_response_one_more
        (w : World) (fuel : nat) (video : UploadFile) (s s' : Machine)
        (r : result Response) :
  submit_response w fuel video s = Some (s', r) ->
  one_more (interview_data s) (interview_data s').
Proof. apply keeps_submit_response. Qed.

Lemma submit_response_one_more_witness :
  one_more (interview_data Sample.under_way)
           (answered (interview_data Sample.under_way)
                     ["First answer."] "I led the migration.").
Proof.
  apply (@submit_response_one_more
           (Sample.world Sample.ready) 5 Sample.clip Sample.under_way
           {| interview_data :=
                answered (interview_data Sample.under_way)
                         ["First answer."] "I led the migration.";
              trace :=
                ([fs_open "temp_a.webm";
                  fs_write "temp_a.webm" [x01; x02]%byte]
                   ++ Sample.ready_trace)
                  ++ [fs_exists "temp_a.webm"; fs_remove "temp_a.webm"] |}
           (Ok (JSONResponse 200 (success_body "I led the migration.")))).
  reflexivity.
Defined.

(** X18: the report is the no-responses sentinel, with no evaluation
    call, exactly when every stored response is empty or white space
    only (the blank-line separators being white space themselves);
    when some response has other text, the evaluation call goes out on
    the joined transcript. *)
Theorem report_of_blank_responses (w : World) (s : Machine) :
  let rs := dict_get (responses (interview_data s)) [] in
  let title := dict_get (role_title (interview_data s)) "N/A" in
  if forallb whitespace_only rs
  then get_recruiter_report w s
       = Some (s, Ok (recruiter_view title no_valid_responses))
  else exists evs view,
      get_recruiter_report w s
      = Some (logged s (llm_invoke
                          (evaluation_template title (join blank_line rs))
                          :: evs),
              Ok view).
Proof.
  intros rs title.
  rewrite get_recruiter_report_eq, evaluate_transcription_eq.
  fold rs title. rewrite whitespace_only_join.
  destruct (forallb whitespace_only rs); [reflexivity|].
  destruct (on_llm w (trace s) _) as [ev|e].
  - exists [], (recruiter_view title ev). reflexivity.
  - eexists [_], _. rewrite logged_logged. reflexivity.
Qed.

Section Serving.
Variable w : World.
Variable fuel : nat.

Lemma serve_invariant_parsed reqs :
  forall s s',
    keys_together (interview_data s) = true ->
    questions_parsed (interview_data s) ->
    serve w fuel reqs s = Some s' ->
    keys_together (interview_data s') = true
    /\ questions_parsed (interview_data s').
Proof.
  induction reqs as [|req rest IH]; intros s s' Hk Hq H; simpl in H.
  - injection H as <-. auto.
  - destruct (route w fuel req s) as [[s1 r]|] eqn:E; [|discriminate].
    apply (IH s1 s'); [| |exact H];
      destruct (@route_data w fuel req s s1 r E)
        as [-> | [[title [raw ->]] | [_ [l [t [Hl ->]]]]]]; auto;
      try apply questions_parsed_started.
    unfold keys_together, answered in *. simpl. rewrite Hl in Hk.
    destruct (role_title (interview_data s));
      destruct (questions (interview_data s)); auto.
Qed.

Lemma serve_count reqs :
  forall s s',
    serve w fuel reqs s = Some s' ->
    response_count (interview_data s')
    <= response_count (interview_data s)
       + List.length (filter is_submit reqs).
Proof.
  induction reqs as [|req rest IH]; intros s s' H; simpl in H.
  - injection H as <-. simpl. lia.
  - destruct (route w fuel req s) as [[s1 r]|] eqn:E; [|discriminate].
    specialize (IH _ _ H).
    destruct (@route_data w fuel req s s1 r E)
      as [He | [[title [raw Hs]] | [Hsub [l [t [Hl Ha]]]]]].
    + rewrite He in IH. simpl. destruct (is_submit req); simpl; lia.
    + rewrite Hs in IH. unfold response_count at 2 in IH. simpl in IH.
      simpl. destruct (is_submit req); simpl; lia.
    + rewrite Ha in IH. unfold response_count at 2 in IH. simpl in IH.
      rewrite length_app in IH. simpl in IH.
      unfold response_count at 2. rewrite Hl. simpl. rewrite Hsub.
      simpl. lia.
Qed.

End Serving.

(** X19: over any sequence of requests, served from the empty dict, the
    session dict keeps two invariants: its three keys are all present or
    all absent, and every stored question is trimmed and starts with a
    digit character. *)
Theorem serve_invariant
        (w : World) (fuel : nat) (reqs : list Request) (tr : Trace)
        (s' : Machine) :
  serve w fuel reqs {| interview_data := interview_data_init; trace := tr |}
  = Some s' ->
  keys_together (interview_data s') = true
  /\ questions_parsed (interview_data s').
Proof.
  intros H. eapply serve_invariant_parsed; [| |exact H].
  - reflexivity.
  - exact I.
Qed.

Lemma serve_invariant_witness :
  keys_together (interview_data Sample.after_session) = true
  /\ questions_parsed (interview_data Sample.after_session).
Proof.
  apply (@serve_invariant Sample.two_clips 5 Sample.session []
                          Sample.after_session).
  vm_compute. reflexivity.
Defined.

(** X20: over any sequence of requests, the number of stored responses
    grows by at most the number of [submit_response] requests served:
    only that handler adds a response, one at a time, and
    [start_interview] only empties the list. *)
Theorem serve_response_count
        (w : World) (fuel : nat) (reqs : list Request) (s s' : Machine) :
  serve w fuel reqs s = Some s' ->
  response_count (interview_data s')
  <= response_count (interview_data s)
     + List.length (filter is_submit reqs).
Proof. apply serve_count. Qed.

Lemma serve_response_count_witness :
  response_count (interview_data Sample.after_session)
  <= response_count (interview_data Sample.fresh)
     + List.length (filter is_submit Sample.session).
Proof.
  apply (@serve_response_count Sample.two_clips 5 Sample.session
                               Sample.fresh Sample.after_session).
  vm_compute. reflexivity.
Defined.

(* ================================================================== *)
(** * Worked runs *)

Example b64_Man : Base64.b64encode [x4d; x61; x6e]%byte = "TWFu".
Proof. reflexivity. Qed.

Example b64_Ma : Base64.b64encode [x4d; x61]%byte = "TWE=".
Proof. reflexivity. Qed.

Example b64_M : Base64.b64encode [x4d]%byte = "TQ==".
Proof. reflexivity. Qed.

Example split_keeps_empty_pieces :
  split LF ("a" ++ nl ++ nl ++ "b" ++ nl)%string = ["a"; ""; "b"; ""].
Proof. reflexivity. Qed.

Example strip_both_ends : strip "  1. x  " = "1. x".
Proof. reflexivity. Qed.

Example numbered_questions :
  questions_list Sample.numbered
  = ["1. Why Rust?"; "2. Tell me about a failure."].
Proof. reflexivity. Qed.

(** With too little fuel the run is still polling. *)
Example still_polling :
  transcribe_video_file (Sample.world Sample.ready) 1 "temp_a.webm"
                        Sample.fresh = None.
Proof. reflexivity. Qed.

Example failed_run :
  transcribe_video_file (Sample.world Sample.failed) 1 "temp_a.webm"
                        Sample.fresh
  = Some (logged Sample.fresh
                 [upload_file "temp_a.webm"; sleep 2; get_file "files/clip";
                  delete_file "files/clip"],
          Raise processing_failed).
Proof. reflexivity. Qed.

(** Start, two answers, report: the responses are stored in the order
    they came, and the evaluation prompt carries them joined by a blank
    line. *)
Example interview_in_order :
  match Sample.interview Sample.fresh with
  | Some (s, r) =>
      interview_data s
      = {| role_title := Some "Backend Engineer";
           questions := Some ["1. Why Rust?"; "2. Tell me about a failure."];
           responses := Some ["I led the migration.";
                              "Then I wrote the tests."] |}
      /\ last (trace s) (sleep 0)
         = llm_invoke
             (evaluation_template
                "Backend Engineer"
                ("I led the migration." ++ nl ++ nl
                   ++ "Then I wrote the tests.")%string)
      /\ r = Ok (recruiter_view "Backend Engineer"
                                "**1. Overall Summary:** fine.")
  | None => False
  end.
Proof. vm_compute. repeat split. Qed.
